(** * login-auth-roles-backend: the authentication / authorization boundary

    A shallow embedding of

      - [src/controllers/authController.js]   ([login])
      - [src/utils/generateToken.js]          ([generateToken])
      - [src/middlewares/verifyToken.js]      ([verifyToken])
      - [src/middlewares/checkRole.js]        ([checkRole])
      - [src/config/db.js]                    ([getDB])
      - [src/routes/dataRoutes.js]            (the guard chains)

    The third-party packages the code calls (sqlite, bcrypt, jose) are not
    part of the repository: they appear as fields of an environment record,
    and every call to them is recorded as an event of the run. *)

From Stdlib Require Import String Ascii List ZArith Bool Lia.
From Stdlib Require Import DecimalString DecimalN.
Import ListNotations.

Local Open Scope string_scope.
Local Open Scope list_scope.
Local Open Scope Z_scope.

(* ===================================================================== *)
(** ** JavaScript values *)
(* ===================================================================== *)

Module JS.

(** The values that can reach the code through a JSON body, an SQLite row
    or a decoded token payload.  Numbers are integers here; an object or an
    array is a reference, which is all the code ever observes of it
    (truthiness and identity). *)
Inductive value : Type :=
  | Undefined
  | Null
  | Bool (b : bool)
  | Num (n : Z)
  | Str (s : string)
  | Ref (addr : nat).

(** [!v] is [negb (truthy v)]. *)
Definition truthy (v : value) : bool :=
  match v with
  | Undefined | Null => false
  | Bool b => b
  | Num n => negb (n =? 0)
  | Str s => negb (s =? "")%string
  | Ref _ => true
  end.

(** SameValueZero, the comparison [Array.prototype.includes] uses. *)
Definition same_value_zero (x y : value) : bool :=
  match x, y with
  | Undefined, Undefined | Null, Null => true
  | Bool a, Bool b => Bool.eqb a b
  | Num a, Num b => a =? b
  | Str a, Str b => (a =? b)%string
  | Ref a, Ref b => Nat.eqb a b
  | _, _ => false
  end.

(** [arr.includes(x)]. *)
Definition includes (arr : list value) (x : value) : bool :=
  existsb (same_value_zero x) arr.

(** An object literal: its own enumerable properties in insertion order. *)
Definition object : Type := list (string * value).

(** [o.k]: the value of property [k], [undefined] when [o] has none. *)
Fixpoint prop (k : string) (o : object) : value :=
  match o with
  | [] => Undefined
  | (k', v) :: o' => if (k' =? k)%string then v else prop k o'
  end.

Definition keys (o : object) : list string := map fst o.

(** [{...o, k: v}]: [k] keeps its position when [o] has it, and is
    appended otherwise. *)
Fixpoint spread_set (o : object) (k : string) (v : value) : object :=
  match o with
  | [] => [(k, v)]
  | (k', v') :: o' =>
      if (k' =? k)%string then (k', v) :: o' else (k', v') :: spread_set o' k v
  end.

(** [s.split(sep)] for a one-character separator. *)
Fixpoint split (sep : ascii) (s : string) : list string :=
  match s with
  | EmptyString => [EmptyString]
  | String c s' =>
      if Ascii.eqb c sep then EmptyString :: split sep s'
      else match split sep s' with
           | [] => [String c EmptyString]
           | seg :: segs => String c seg :: segs
           end
  end.

(** An [Error] object, as far as the code looks at it. *)
Record error : Type := Error { name : string; message : string }.

End JS.

Import JS.

Definition space : ascii := " "%char.

(* ===================================================================== *)
(** ** HTTP *)
(* ===================================================================== *)

(** What [res.status(c).json(b)] sends; [res.json(b)] alone sends 200. *)
Record Response : Type := mkResponse { status : Z; body : object }.

Definition json (b : object) : Response := mkResponse 200 b.
Definition status_json (c : Z) (b : object) : Response := mkResponse c b.

(** [req.user], the object literal [verifyToken] attaches. *)
Module Claims.
Record t : Type := mk { id : value; username : value; role : value }.
End Claims.

(** A row of the [users] table ([SELECT *]: every column is there). *)
Module Row.
Record t : Type :=
  mk { id : value; username : value; passwordHashed : value; role : value }.
End Row.

(** The parts of an Express request the code reads or writes:
    [req.body.username], [req.body.password], [req.headers['authorization']]
    and [req.user]. *)
Record Request : Type := mkRequest {
  body_username : value;
  body_password : value;
  authorization : option string;
  user : option Claims.t
}.

Definition set_user (req : Request) (u : Claims.t) : Request :=
  mkRequest (body_username req) (body_password req) (authorization req) (Some u).

(* ===================================================================== *)
(** ** The collaborators outside the repository *)
(* ===================================================================== *)

(** The sqlite handle: [db.get(sql, params)] resolves to a row or to
    [undefined], or rejects. *)
Record Database : Type := {
  get : string -> list value -> error + option Row.t
}.

(** The [SignJWT] builder of jose. *)
Module SignJWT.
Record t : Type := mk { payload : object; protectedHeader : object }.

Definition new (p : object) : t := mk p [].

Definition setProtectedHeader (h : object) (b : t) : t := mk (payload b) h.

(** jose's [secs('1m')]. *)
Definition secs_1m : Z := 60.

(** [.setExpirationTime('1m')] at clock [now] (seconds since the epoch):
    [exp = epoch(now) + secs('1m')]. *)
Definition setExpirationTime_1m (now : Z) (b : t) : t :=
  mk (spread_set (payload b) "exp" (Num (now + secs_1m))) (protectedHeader b).
End SignJWT.

(** jose: [builder.sign(key)] and [jwtVerify(token, key)], the latter also
    reading the clock. *)
Record Jose : Type := {
  sign : SignJWT.t -> string -> error + string;
  jwtVerify : string -> string -> Z -> error + object
}.

(** Everything a request runs against. *)
Record Env : Type := {
  db : option Database;               (* [let db;] of config/db.js *)
  bcrypt_compare : value -> value -> error + bool;
  jose : Jose;
  JWT_SECRET : option string;         (* [process.env.JWT_SECRET] *)
  clock : Z                           (* seconds since the epoch *)
}.

(** [new TextEncoder().encode(s)]; [encode(undefined)] is the empty array. *)
Definition TextEncoder_encode (s : option string) : string :=
  match s with Some k => k | None => "" end.

(* ===================================================================== *)
(** ** Effects: events of a run, exceptions *)
(* ===================================================================== *)

Inductive Event : Type :=
  | ConsoleError (tag : string) (e : error)
  | DbGet (sql : string) (params : list value) (r : error + option Row.t)
  | BcryptCompare (data hash : value) (r : error + bool)
  | Signed (b : SignJWT.t) (key : string) (r : error + string)
  | Verified (token key : string) (r : error + object)
  | Invoked (layer : string).

(** A computation emits events and either throws or returns. *)
Definition M (A : Type) : Type := list Event * (error + A).

Definition ret {A} (a : A) : M A := ([], inr a).
Definition throw {A} (e : error) : M A := ([], inl e).

Definition bind {A B} (m : M A) (f : A -> M B) : M B :=
  match m with
  | (ev, inl e) => (ev, inl e)
  | (ev, inr a) => let (ev', r) := f a in (ev ++ ev', r)
  end.

(** [try { m } catch (e) { h e }]. *)
Definition try_catch {A} (m : M A) (h : error -> M A) : M A :=
  match m with
  | (ev, inl e) => let (ev', r) := h e in (ev ++ ev', r)
  | (ev, inr a) => (ev, inr a)
  end.

Notation "x <- m ;; k" := (bind m (fun x => k))
  (at level 61, m at next level, right associativity).
Notation "m ;;; k" := (bind m (fun _ => k))
  (at level 61, right associativity).

Definition console_error (tag : string) (e : error) : M unit :=
  ([ConsoleError tag e], inr tt).

(** A handler that has caught everything: events and the response sent. *)
Record Run : Type := mkRun { events : list Event; response : Response }.

(** [try { m } catch (e) { h e }] where the handler itself cannot throw. *)
Definition try_catch_all {A} (m : M A) (h : error -> list Event * A)
  : list Event * A :=
  match m with
  | (ev, inl e) => let (ev', a) := h e in (ev ++ ev', a)
  | (ev, inr a) => (ev, a)
  end.

(** Calls into the collaborators, each leaving its event. *)
Definition call_get (d : Database) (sql : string) (params : list value)
  : M (option Row.t) :=
  let r := get d sql params in ([DbGet sql params r], r).

Definition call_compare (env : Env) (data hash : value) : M bool :=
  let r := bcrypt_compare env data hash in ([BcryptCompare data hash r], r).

Definition call_sign (env : Env) (b : SignJWT.t) (key : string) : M string :=
  let r := sign (jose env) b key in ([Signed b key r], r).

Definition call_jwtVerify (env : Env) (token key : string) : M object :=
  let r := jwtVerify (jose env) token key (clock env) in
  ([Verified token key r], r).

(* ===================================================================== *)
(** ** src/config/db.js *)
(* ===================================================================== *)

Definition getDB (env : Env) : M Database :=
  match db env with
  | None => throw (Error "Error" "Database not connected. Call connectDB() first.")
  | Some d => ret d
  end.

(* ===================================================================== *)
(** ** src/utils/generateToken.js *)
(* ===================================================================== *)

Definition generateToken (env : Env) (user : Row.t) : M string :=
  let secret := TextEncoder_encode (JWT_SECRET env) in
  try_catch
    (token <- call_sign env
       (SignJWT.setExpirationTime_1m (clock env)
          (SignJWT.setProtectedHeader [("alg", Str "HS256")]
             (SignJWT.new [("id", Row.id user);
                           ("username", Row.username user);
                           ("role", Row.role user)])))
       secret ;;
     ret token)
    (fun error =>
       console_error "Token generation failed:" error ;;;
       throw error).

(* ===================================================================== *)
(** ** src/controllers/authController.js *)
(* ===================================================================== *)

Definition login (env : Env) (req : Request) : Run :=
  let username := body_username req in
  let password := body_password req in
  if negb (truthy username) || negb (truthy password) then
    mkRun [] (status_json 400 [("message", Str "Username and password required")])
  else
    let (ev, res) :=
      try_catch_all
        (db <- getDB env ;;
         user <- call_get db "SELECT * FROM users WHERE username = ?" [username] ;;
         match user with
         | None =>
             ret (status_json 401 [("message", Str "Invalid credentials")])
         | Some user =>
             isMatch <- call_compare env password (Row.passwordHashed user) ;;
             if negb isMatch then
               ret (status_json 401 [("message", Str "Invalid credentials")])
             else
               token <- generateToken env user ;;
               ret (json [("id", Row.id user);
                          ("username", Row.username user);
                          ("role", Row.role user);
                          ("token", Str token)])
         end)
        (fun err =>
           ([ConsoleError "Login error:" err],
            status_json 500 [("message", Str "Server error")]))
    in mkRun ev res.

(* ===================================================================== *)
(** ** Middlewares *)
(* ===================================================================== *)

(** A middleware either sends the response or calls [next()], handing the
    (possibly decorated) request object on. *)
Inductive Step : Type :=
  | Sent (r : Response)
  | Next (req : Request).

(** An optional string as a JavaScript value ([undefined] when absent). *)
Definition of_option (o : option string) : value :=
  match o with Some s => Str s | None => Undefined end.

(** [arr[i]] on an array of strings. *)
Definition index (arr : list string) (i : nat) : value :=
  of_option (nth_error arr i).

(** *** src/middlewares/verifyToken.js

    [secret] is encoded once, when the module is loaded: for this
    middleware [JWT_SECRET env] is the variable as it was then. *)
Definition verifyToken (env : Env) (req : Request) : list Event * Step :=
  let secret := TextEncoder_encode (JWT_SECRET env) in
  match authorization req with
  | None => ([], Sent (status_json 401 [("message", Str "No token provided")]))
  | Some authHeader =>
      if negb (truthy (Str authHeader)) then
        ([], Sent (status_json 401 [("message", Str "No token provided")]))
      else
        match index (split space authHeader) 1 with
        | Str token =>
            if negb (truthy (Str token)) then
              ([], Sent (status_json 401 [("message", Str "Malformed token")]))
            else
              try_catch_all
                (payload <- call_jwtVerify env token secret ;;
                 ret (Next (set_user req
                              (Claims.mk (prop "id" payload)
                                         (prop "username" payload)
                                         (prop "role" payload)))))
                (fun err =>
                   ([ConsoleError "Token verification failed:" err],
                    Sent (status_json 403
                            [("message", Str "Invalid or expired token")])))
        | _ => ([], Sent (status_json 401 [("message", Str "Malformed token")]))
        end
  end.

(** *** src/middlewares/checkRole.js

    [roles = []] is a default parameter: it applies when the argument is
    [undefined], here [None]. *)
Definition checkRole (roles_arg : option (list value)) (req : Request) : Step :=
  let roles := match roles_arg with Some r => r | None => [] end in
  match user req with
  | None =>
      Sent (status_json 403
              [("message", Str "Access denied: insufficient permissions")])
  | Some u =>
      if negb (includes roles (Claims.role u)) then
        Sent (status_json 403
                [("message", Str "Access denied: insufficient permissions")])
      else Next req
  end.

(* ===================================================================== *)
(** ** src/routes/dataRoutes.js *)
(* ===================================================================== *)

(** A layer of a route's stack: its name and its function. *)
Definition Layer : Type := string * (Request -> list Event * Step).

(** Express runs the stack in order; [next()] moves to the following
    layer, a sent response ends the run.  [None]: the stack fell through. *)
Fixpoint dispatch (stack : list Layer) (req : Request)
  : list Event * option Response :=
  match stack with
  | [] => ([], None)
  | (name, fn) :: rest =>
      let (ev, st) := fn req in
      match st with
      | Sent r => (Invoked name :: ev, Some r)
      | Next req' =>
          let (ev', out) := dispatch rest req' in
          (Invoked name :: ev ++ ev', out)
      end
  end.

Definition pure_layer (f : Request -> Step) (req : Request)
  : list Event * Step := ([], f req).

Definition handler_name : string := "handler".

(** [router.get(path, verifyToken, checkRole(roles), handler)]. *)
Definition guarded (env : Env) (roles : option (list value))
    (handler : Request -> list Event * Step) : list Layer :=
  [("verifyToken", verifyToken env);
   ("checkRole", pure_layer (checkRole roles));
   (handler_name, handler)].

(** [router.get(path, verifyToken, handler)]. *)
Definition authenticated (env : Env)
    (handler : Request -> list Event * Step) : list Layer :=
  [("verifyToken", verifyToken env);
   (handler_name, handler)].

Definition admin_handler (req : Request) : list Event * Step :=
  ([], Sent (json [("message", Str "Admin content here")])).

Definition advisor_handler (req : Request) : list Event * Step :=
  ([], Sent (json [("message", Str "Advisor content here")])).

(** [GET /data/admin] and [GET /data/advisor]. *)
Definition route_admin (env : Env) : list Layer :=
  guarded env (Some [Str "admin"]) admin_handler.

Definition route_advisor (env : Env) : list Layer :=
  guarded env (Some [Str "advisor"]) advisor_handler.

(* ===================================================================== *)
(** ** What the code relies on from jose *)
(* ===================================================================== *)

Fixpoint string_forallb (p : ascii -> bool) (s : string) : bool :=
  match s with
  | EmptyString => true
  | String c s' => p c && string_forallb p s'
  end.

Definition avoids (sep : ascii) (s : string) : bool :=
  string_forallb (fun c => negb (Ascii.eqb c sep)) s.

(** The two facts about jose the guard chain depends on: a signed token is
    in the compact serialization (non-empty, no blank in it), and
    [jwtVerify] rejects a token it signed once the clock has passed the
    payload's [exp]. *)
Record JoseSpec (J : Jose) : Prop := {
  sign_compact :
    forall b key tok,
      sign J b key = inr tok -> tok <> ""%string /\ avoids space tok = true;
  jwtVerify_expired :
    forall b key tok e now,
      sign J b key = inr tok ->
      prop "exp" (SignJWT.payload b) = Num e ->
      e < now ->
      exists err, jwtVerify J tok key now = inl err
}.

(* ===================================================================== *)
(** ** A small deployment to run the code on *)
(* ===================================================================== *)

Module Demo.

(** Decimal numerals for natural numbers. *)
Definition dec (n : Z) : string :=
  NilZero.string_of_uint (N.to_uint (Z.to_N n)).

Definition undec (s : string) : option Z :=
  match NilZero.uint_of_string s with
  | Some d => Some (Z.of_N (N.of_uint d))
  | None => None
  end.

Definition dot : ascii := "."%char.

Definition plain (s : string) : bool := avoids dot s && avoids space s.

Fixpoint checksum (s : string) : Z :=
  match s with
  | EmptyString => 7
  | String c s' => (Z.of_nat (nat_of_ascii c) + 31 * checksum s') mod 65521
  end.

(** A stand-in for jose with readable tokens,
    [id.username.role.exp.mac], the last segment depending on the key. *)
Definition demo_sign (b : SignJWT.t) (key : string) : error + string :=
  let p := SignJWT.payload b in
  match prop "id" p, prop "username" p, prop "role" p, prop "exp" p with
  | Num i, Str u, Str r, Num e =>
      if (0 <=? i) && (0 <=? e) && plain u && plain r then
        inr (dec i ++ "." ++ u ++ "." ++ r ++ "." ++ dec e ++ "."
               ++ dec (checksum key))%string
      else inl (Error "JWTInvalid" "unsupported claim value")
  | _, _, _, _ => inl (Error "JWTInvalid" "unsupported claim value")
  end.

Definition demo_jwtVerify (token key : string) (now : Z) : error + object :=
  match split dot token with
  | [i; u; r; e; m] =>
      match undec i, undec e, undec m with
      | Some i', Some e', Some m' =>
          if negb (m' =? checksum key) then
            inl (Error "JWSSignatureVerificationFailed"
                       "signature verification failed")
          else if e' <=? now then
            inl (Error "JWTExpired" "exp claim timestamp check failed")
          else
            inr [("id", Num i'); ("username", Str u); ("role", Str r);
                 ("exp", Num e')]
      | _, _, _ => inl (Error "JWSInvalid" "Invalid Compact JWS")
      end
  | _ => inl (Error "JWSInvalid" "Invalid Compact JWS")
  end.

Definition demo_jose : Jose :=
  {| sign := demo_sign; jwtVerify := demo_jwtVerify |}.

(** A stand-in for bcrypt: the hash of [p] is [p] behind a fixed prefix. *)
Definition demo_hash (p : string) : string := ("$2b$10$" ++ p)%string.

Definition demo_compare (data hash : value) : error + bool :=
  match data, hash with
  | Str d, Str h => inr (h =? demo_hash d)%string
  | _, _ => inl (Error "Error" "data and hash arguments required")
  end.

(** A stand-in for sqlite: the table is a list of rows. *)
Definition table (rows : list Row.t) : Database :=
  {| get := fun _ params =>
       match params with
       | [u] => inr (find (fun r => same_value_zero (Row.username r) u) rows)
       | _ => inl (Error "SQLITE_RANGE" "column index out of range")
       end |}.

(** The rows seed.js inserts. *)
Definition seeded : list Row.t :=
  [Row.mk (Num 1) (Str "user1") (Str (demo_hash "password1")) (Str "user");
   Row.mk (Num 2) (Str "advisor1") (Str (demo_hash "password2")) (Str "advisor");
   Row.mk (Num 3) (Str "admin1") (Str (demo_hash "password3")) (Str "admin")].

Definition admin1 : Row.t :=
  Row.mk (Num 3) (Str "admin1") (Str (demo_hash "password3")) (Str "admin").

Definition env_at (now : Z) : Env :=
  {| db := Some (table seeded);
     bcrypt_compare := demo_compare;
     jose := demo_jose;
     JWT_SECRET := Some "s3cret";
     clock := now |}.

(** The same deployment before [connectDB()] has run. *)
Definition env_unconnected (now : Z) : Env :=
  {| db := None;
     bcrypt_compare := demo_compare;
     jose := demo_jose;
     JWT_SECRET := Some "s3cret";
     clock := now |}.

Definition post_login (u p : value) : Request := mkRequest u p None None.


(** The token this deployment issues to admin1 when its clock reads 1000. *)
Definition admin_token : string := "3.admin1.admin.1060.64854".

Definition get_with (h : option string) : Request :=
  mkRequest Undefined Undefined h None.

End Demo.

(* ===================================================================== *)
(** ** The vocabulary of the statements *)
(* ===================================================================== *)

(** The fixed responses of the boundary. *)
Definition no_token : Response :=
  status_json 401 [("message", Str "No token provided")].
Definition malformed_token : Response :=
  status_json 401 [("message", Str "Malformed token")].
Definition invalid_or_expired : Response :=
  status_json 403 [("message", Str "Invalid or expired token")].
Definition access_denied : Response :=
  status_json 403 [("message", Str "Access denied: insufficient permissions")].
Definition invalid_credentials : Response :=
  status_json 401 [("message", Str "Invalid credentials")].
Definition fields_required : Response :=
  status_json 400 [("message", Str "Username and password required")].
Definition server_error : Response :=
  status_json 500 [("message", Str "Server error")].

(** The gate's deny condition, in the words of the specification: no
    claims, or a role outside the required set. *)
Definition denied_by (roles : list value) (claims : option Claims.t) : Prop :=
  match claims with
  | None => True
  | Some u => ~ In (Claims.role u) roles
  end.

(** [authHeader.split(' ')[1]]. *)
Definition token_segment (authHeader : string) : value :=
  index (split space authHeader) 1.

(** The key [verifyToken] hands to jose. *)
Definition verification_key (env : Env) : string :=
  TextEncoder_encode (JWT_SECRET env).

(** What an observer sees of a middleware run: its events and either the
    response sent or the claims handed on. *)
Definition decision (run : list Event * Step)
  : list Event * (Response + option Claims.t) :=
  match run with
  | (ev, Sent r) => (ev, inl r)
  | (ev, Next req') => (ev, inr (user req'))
  end.

(** The builder [generateToken] has assembled when it calls [.sign]
    (lemma [generateToken_run] below). *)
Definition claims_to_sign (now : Z) (user : Row.t) : SignJWT.t :=
  SignJWT.mk [("id", Row.id user);
              ("username", Row.username user);
              ("role", Row.role user);
              ("exp", Num (now + 60))]
             [("alg", Str "HS256")].

(** The same deployment with its clock at [t]. *)
Definition at_time (env : Env) (t : Z) : Env :=
  {| db := db env;
     bcrypt_compare := bcrypt_compare env;
     jose := jose env;
     JWT_SECRET := JWT_SECRET env;
     clock := t |}.

(** The query of [login]. *)
Definition lookup_sql : string := "SELECT * FROM users WHERE username = ?".

(** The error [getDB] throws. *)
Definition not_connected : error :=
  Error "Error" "Database not connected. Call connectDB() first.".

(** The request passed the presence check of [login]. *)
Definition validated (req : Request) : Prop :=
  truthy (body_username req) = true /\ truthy (body_password req) = true.

(** The 200 body of a successful login. *)
Definition identity_with_token (user : Row.t) (tok : string) : object :=
  [("id", Row.id user); ("username", Row.username user);
   ("role", Row.role user); ("token", Str tok)].

(** The two situations of the anti-enumeration rule, as facts about the
    store and the verifier. *)
Definition unknown_username (env : Env) (req : Request) : Prop :=
  exists d, db env = Some d /\
            get d lookup_sql [body_username req] = inr None.

Definition wrong_password (env : Env) (req : Request) : Prop :=
  exists d row,
    db env = Some d /\
    get d lookup_sql [body_username req] = inr (Some row) /\
    bcrypt_compare env (body_password req) (Row.passwordHashed row) = inr false.

(** The unexpected failures of a login, once the presence check is passed:
    the store handle was never initialized, the lookup failed, the
    password verifier failed, or signing failed. *)
Inductive unexpected_failure (env : Env) (req : Request) : error -> Prop :=
  | store_uninitialized :
      db env = None ->
      unexpected_failure env req not_connected
  | store_unreachable d e :
      db env = Some d ->
      get d lookup_sql [body_username req] = inl e ->
      unexpected_failure env req e
  | verifier_error d row e :
      db env = Some d ->
      get d lookup_sql [body_username req] = inr (Some row) ->
      bcrypt_compare env (body_password req) (Row.passwordHashed row) = inl e ->
      unexpected_failure env req e
  | signing_failure d row e :
      db env = Some d ->
      get d lookup_sql [body_username req] = inr (Some row) ->
      bcrypt_compare env (body_password req) (Row.passwordHashed row) = inr true ->
      sign (jose env) (claims_to_sign (clock env) row)
           (TextEncoder_encode (JWT_SECRET env)) = inl e ->
      unexpected_failure env req e.

(* ===================================================================== *)
(** ** src/config/db.js: connectDB *)
(* ===================================================================== *)

(** The rest of the sqlite package: [open(...)], [db.exec(sql)] and
    [db.run(sql, params)], whose result the code never reads. *)
Module Sqlite.
Record t : Type := mk {
  open : string -> error + Database;
  exec : Database -> string -> error + unit;
  run : Database -> string -> list value -> error + unit
}.
End Sqlite.

(** The statement [connectDB] executes. *)
Definition create_users_sql : string :=
"
        CREATE TABLE IF NOT EXISTS users (
            id INTEGER PRIMARY KEY AUTOINCREMENT,
            username TEXT UNIQUE,
            passwordHashed TEXT,
            role TEXT
        )
    ".

(** [connectDB()] on the module variable [db]: the new value of [db], the
    lines written with [console.log], and how the promise settles.  [db] is
    assigned as soon as [open] resolves, before the table is created.
    [file] is [path.join(__dirname, '../database.sqlite')]. *)
Definition connectDB (sq : Sqlite.t) (file : string) (db0 : option Database)
  : option Database * (list string * (error + unit)) :=
  match Sqlite.open sq file with
  | inl e => (db0, ([], inl e))
  | inr d =>
      match Sqlite.exec sq d create_users_sql with
      | inl e => (Some d, ([], inl e))
      | inr _ => (Some d, (["SQLite connected and users table ready."], inr tt))
      end
  end.

(** The process with its module variable [db] set to [st]. *)
Definition set_db (env : Env) (st : option Database) : Env :=
  {| db := st;
     bcrypt_compare := bcrypt_compare env;
     jose := jose env;
     JWT_SECRET := JWT_SECRET env;
     clock := clock env |}.

(** Several calls of [connectDB], one after the other. *)
Fixpoint connect_attempts (attempts : list (Sqlite.t * string))
    (st : option Database) : option Database :=
  match attempts with
  | [] => st
  | (sq, file) :: rest => connect_attempts rest (fst (connectDB sq file st))
  end.

(** The handle of the last attempt whose [open] resolved, if any. *)
Fixpoint last_opened (attempts : list (Sqlite.t * string))
  : option Database :=
  match attempts with
  | [] => None
  | (sq, file) :: rest =>
      match last_opened rest with
      | Some d => Some d
      | None =>
          match Sqlite.open sq file with
          | inr d => Some d
          | inl _ => None
          end
      end
  end.

(* ===================================================================== *)
(** ** The seed script *)
(* ===================================================================== *)

Module Seed.

(** What the script does to the outside. *)
Inductive Event : Type :=
  | Hashed (data : string) (rounds : Z) (r : error + string)
  | Ran (sql : string) (params : list value) (r : error + unit)
  | ConsoleLog (line : string)
  | Exit (code : Z).

Record User : Type :=
  mkUser { username : string; password : string; role : string }.

Definition users : list User :=
  [mkUser "user1" "password1" "user";
   mkUser "advisor1" "password2" "advisor";
   mkUser "admin1" "password3" "admin"].

Definition insert_sql : string :=
  "INSERT INTO users (username, passwordHashed, role) VALUES (?, ?, ?)".

(** [s.includes(sub)] on strings. *)
Definition includes (s sub : string) : bool :=
  match String.index 0 sub s with
  | Some _ => true
  | None => false
  end.

(** The [for (const u of users)] loop: [bcrypt.hash] is outside the
    [try], [db.run] inside it; the [catch] ends the iteration whether or
    not the message has 'UNIQUE' in it. *)
Fixpoint loop (hash : string -> Z -> error + string) (sq : Sqlite.t)
    (d : Database) (us : list User) : list Event * (error + unit) :=
  match us with
  | [] => ([], inr tt)
  | u :: rest =>
      match hash (password u) 10 with
      | inl e => ([Hashed (password u) 10 (inl e)], inl e)
      | inr hashed =>
          let params := [Str (username u); Str hashed; Str (role u)] in
          let r := Sqlite.run sq d insert_sql params in
          let (ev, out) :=
            match r with
            | inr _ => loop hash sq d rest
            | inl err =>
                if includes (message err) "UNIQUE" then loop hash sq d rest
                else loop hash sq d rest
            end in
          (Hashed (password u) 10 (inr hashed) :: Ran insert_sql params r :: ev,
           out)
      end
  end.

(** [seed()], started in a process whose module variable [db] is
    [db env]. *)
Definition seed (hash : string -> Z -> error + string) (sq : Sqlite.t)
    (file : string) (env : Env) : list Event * (error + unit) :=
  let (db1, connected) := connectDB sq file (db env) in
  let (lines, settled) := connected in
  match settled with
  | inl e => (map ConsoleLog lines, inl e)
  | inr _ =>
      match snd (getDB (set_db env db1)) with
      | inl e => (map ConsoleLog lines, inl e)
      | inr d =>
          let (ev, out) := loop hash sq d users in
          match out with
          | inl e => (map ConsoleLog lines ++ ev, inl e)
          | inr _ =>
              (map ConsoleLog lines ++ ev ++
                 [ConsoleLog "Users seeded."; Exit 0], inr tt)
          end
      end
  end.

(** The [db.run] calls among the events, in order. *)
Fixpoint inserts (ev : list Event) : list (list value) :=
  match ev with
  | [] => []
  | Ran _ params _ :: rest => params :: inserts rest
  | _ :: rest => inserts rest
  end.

End Seed.

(* ===================================================================== *)
(** ** src/routes/dataRoutes.js: GET /data/all *)
(* ===================================================================== *)

Section AllRoute.

(** The string conversion of a template literal, and what Express answers
    when a handler throws: both belong to the platform. *)
Variable ToString : value -> string.
Variable express_error : error -> Response.

Definition cannot_read_username : error :=
  Error "TypeError" "Cannot read properties of undefined (reading 'username')".

(** The handler of [GET /data/all]. *)
Definition all_handler (req : Request) : list Event * Step :=
  match user req with
  | None => ([], Sent (express_error cannot_read_username))
  | Some u =>
      ([], Sent (json [("message",
                        Str ("Hello " ++ ToString (Claims.username u) ++
                             ", your role is " ++ ToString (Claims.role u))%string)]))
  end.

Definition route_all (env : Env) : list Layer :=
  authenticated env all_handler.

End AllRoute.

(* ===================================================================== *)
(** ** src/controllers/authController.js: the request as it arrives *)
(* ===================================================================== *)

(** The request as Express hands it to [login].  [req.body] is what
    [express.json()] left there: an object, seen through its [username]
    and [password] properties ([undefined] when it has none, as for an
    array), or [undefined] when no body was parsed. *)
Record Incoming : Type := mkIncoming {
  incoming_body : option (value * value);
  incoming_authorization : option string;
  incoming_user : option Claims.t
}.

(** What [const { username, password } = req.body] throws on [undefined]. *)
Definition cannot_destructure : error :=
  Error "TypeError"
        "Cannot destructure property 'username' of 'req.body' as it is undefined.".

(** [login] from its first statement: the destructuring stands before the
    [try], so its TypeError leaves the handler (the promise rejects and
    [login] sends nothing). *)
Definition login_incoming (env : Env) (inc : Incoming) : error + Run :=
  match incoming_body inc with
  | None => inl cannot_destructure
  | Some (username, password) =>
      inr (login env (mkRequest username password
                        (incoming_authorization inc) (incoming_user inc)))
  end.

(** A deployment whose store holds a user with the empty password. *)
Module DemoGuest.

Definition guest : Row.t :=
  Row.mk (Num 4) (Str "guest") (Str (Demo.demo_hash "")) (Str "user").

Definition env_at (now : Z) : Env :=
  {| db := Some (Demo.table (Demo.seeded ++ [guest]));
     bcrypt_compare := Demo.demo_compare;
     jose := Demo.demo_jose;
     JWT_SECRET := Some "s3cret";
     clock := now |}.

End DemoGuest.

(* ===================================================================== *)
(** ** More vocabulary *)
(* ===================================================================== *)

(** A value that survives the JSON encoding of a token payload: anything
    but an object reference. *)
Definition primitive (v : value) : bool :=
  match v with
  | Ref _ => false
  | _ => true
  end.

(** What the code relies on from jose when a token is still fresh, for
    the tokens [generateToken] asks for: a payload of [id], [username],
    [role] (primitive values) and [exp], under the header
    [{alg: 'HS256'}].  [jwtVerify], asked with the key that signed such a
    token before its [exp], returns a payload with the same [id],
    [username] and [role]. *)
Record JoseRoundTrip (J : Jose) : Prop := {
  jwtVerify_fresh :
    forall i u r e key tok now,
      primitive i = true -> primitive u = true -> primitive r = true ->
      sign J (SignJWT.mk [("id", i); ("username", u); ("role", r);
                          ("exp", Num e)]
                         [("alg", Str "HS256")]) key = inr tok ->
      now < e ->
      exists p,
        jwtVerify J tok key now = inr p /\
        prop "id" p = i /\
        prop "username" p = u /\
        prop "role" p = r
}.

(** The handler of a stack was invoked in a run. *)
Definition reaches_handler (run : list Event * option Response) : Prop :=
  In (Invoked handler_name) (fst run).

(** [checkRole(roles)] lets the request through. *)
Definition allows (roles : option (list value)) (req : Request) : Prop :=
  checkRole roles req = Next req.

Module DemoSeed.

(** A stand-in for [bcrypt.hash] matching [Demo.demo_compare]. *)
Definition demo_bcrypt_hash (data : string) (rounds : Z) : error + string :=
  inr (Demo.demo_hash data).

(** An sqlite whose table already holds the seeded rows: every insert
    fails on the UNIQUE constraint. *)
Definition seeded_sqlite : Sqlite.t :=
  Sqlite.mk (fun _ => inr (Demo.table Demo.seeded))
            (fun _ _ => inr tt)
            (fun _ _ _ =>
               inl (Error "Error"
                          "SQLITE_CONSTRAINT: UNIQUE constraint failed: users.username")).

(** An sqlite that cannot open its file. *)
Definition broken_sqlite : Sqlite.t :=
  Sqlite.mk (fun _ => inl (Error "Error" "SQLITE_CANTOPEN: unable to open database file"))
            (fun _ _ => inr tt)
            (fun _ _ _ => inr tt).

(** An sqlite whose inserts fail for another reason. *)
Definition readonly_sqlite : Sqlite.t :=
  Sqlite.mk (fun _ => inr (Demo.table Demo.seeded))
            (fun _ _ => inr tt)
            (fun _ _ _ =>
               inl (Error "Error" "SQLITE_READONLY: attempt to write a readonly database")).

End DemoSeed.

(* ===================================================================== *)
(** ** Basic facts about the JavaScript layer *)
(* ===================================================================== *)

Lemma same_value_zero_eq (x y : value) :
  same_value_zero x y = true <-> x = y.
Proof.
  destruct x, y; simpl; try (split; intros H; (discriminate || reflexivity)).
  - rewrite Bool.eqb_true_iff. split; congruence.
  - rewrite Z.eqb_eq. split; congruence.
  - rewrite String.eqb_eq. split; congruence.
  - rewrite Nat.eqb_eq. split; congruence.
Qed.

Lemma includes_In (arr : list value) (x : value) :
  includes arr x = true <-> In x arr.
Proof.
  unfold includes. rewrite existsb_exists. split.
  - intros (y & Hy & E). apply same_value_zero_eq in E. now subst.
  - intros H. exists x. split; [assumption | now apply same_value_zero_eq].
Qed.

Lemma includes_not_In (arr : list value) (x : value) :
  includes arr x = false <-> ~ In x arr.
Proof.
  rewrite <- includes_In. destruct (includes arr x); split; intros H;
    congruence.
Qed.

Lemma truthy_Str (s : string) : truthy (Str s) = true <-> s <> ""%string.
Proof.
  simpl. destruct (String.eqb_spec s ""); simpl; split; intros H;
    congruence.
Qed.

(** A string without the separator is one segment, and a separator after
    such a prefix starts the next one. *)
Lemma split_avoids (sep : ascii) (s : string) :
  avoids sep s = true -> split sep s = [s].
Proof.
  unfold avoids. induction s as [|c s IH]; simpl; intros H.
  - reflexivity.
  - apply andb_true_iff in H as [Hc Hs].
    destruct (Ascii.eqb c sep); [discriminate|].
    now rewrite (IH Hs).
Qed.

Lemma split_app (sep : ascii) (a b : string) :
  avoids sep a = true ->
  split sep (a ++ String sep b)%string = a :: split sep b.
Proof.
  unfold avoids. induction a as [|c a IH]; simpl; intros H.
  - now rewrite Ascii.eqb_refl.
  - apply andb_true_iff in H as [Hc Ha].
    destruct (Ascii.eqb c sep); [discriminate|].
    now rewrite (IH Ha).
Qed.

(* ===================================================================== *)
(** ** The access gate *)
(* ===================================================================== *)

Lemma checkRole_cases (roles : list value) (req : Request) :
  (denied_by roles (user req) /\ checkRole (Some roles) req = Sent access_denied)
  \/ (~ denied_by roles (user req) /\ checkRole (Some roles) req = Next req).
Proof.
  unfold checkRole, denied_by. destruct (user req) as [u|].
  - destruct (includes roles (Claims.role u)) eqn:E; simpl.
    + right. apply includes_In in E. split; [tauto | reflexivity].
    + left. apply includes_not_In in E. split; [assumption | reflexivity].
  - left. split; [exact I | reflexivity].
Qed.

(** C2.  For every request (with or without claims attached) and every
    required-role list, [checkRole] sends 403 exactly when the claims are
    absent or their role is not in the list, and calls [next()] on the
    unchanged request exactly otherwise.  With the list [['admin']] it
    denies the role "advisor" and allows "admin"; with [['advisor']] it
    denies "admin": no role stands in for another. *)
Theorem checkRole_decision (roles : list value) (req : Request) :
  (checkRole (Some roles) req = Sent access_denied
     <-> denied_by roles (user req)) /\
  (checkRole (Some roles) req = Next req
     <-> ~ denied_by roles (user req)) /\
  (forall i n,
     checkRole (Some [Str "admin"])
       (set_user req (Claims.mk i n (Str "advisor"))) = Sent access_denied) /\
  (forall i n,
     checkRole (Some [Str "admin"]) (set_user req (Claims.mk i n (Str "admin")))
       = Next (set_user req (Claims.mk i n (Str "admin")))) /\
  (forall i n,
     checkRole (Some [Str "advisor"])
       (set_user req (Claims.mk i n (Str "admin"))) = Sent access_denied).
Proof.
  repeat split; try reflexivity.
  - intros H. destruct (checkRole_cases roles req) as [[D _]|[_ E]];
      [assumption | congruence].
  - intros D. destruct (checkRole_cases roles req) as [[_ E]|[N _]];
      [assumption | contradiction].
  - intros H D. destruct (checkRole_cases roles req) as [[_ E]|[N _]];
      [congruence | contradiction].
  - intros N. destruct (checkRole_cases roles req) as [[D _]|[_ E]];
      [contradiction | assumption].
Qed.

(** C10.  With an empty required-role list, and likewise with no argument
    at all (the default parameter), [checkRole] sends 403 for every
    request, whatever claims it carries. *)
Theorem checkRole_empty_denies (req : Request) :
  checkRole (Some []) req = Sent access_denied /\
  checkRole None req = Sent access_denied.
Proof.
  unfold checkRole. destruct (user req); split; reflexivity.
Qed.

(* ===================================================================== *)
(** ** The token verifier *)
(* ===================================================================== *)

Lemma token_segment_shape (h : string) :
  token_segment h = Undefined \/ exists t, token_segment h = Str t.
Proof.
  unfold token_segment, index.
  destruct (nth_error (split space h) 1); simpl; eauto.
Qed.

Lemma verifyToken_no_header (env : Env) (req : Request) :
  authorization req = None \/ authorization req = Some ""%string ->
  verifyToken env req = ([], Sent no_token).
Proof.
  unfold verifyToken. intros [-> | ->]; reflexivity.
Qed.

Lemma verifyToken_no_segment (env : Env) (req : Request) (h : string) :
  authorization req = Some h -> h <> ""%string ->
  truthy (token_segment h) = false ->
  verifyToken env req = ([], Sent malformed_token).
Proof.
  unfold verifyToken, token_segment. intros -> Hh Ht.
  apply truthy_Str in Hh. rewrite Hh. cbn [negb].
  destruct (index (split space h) 1) as [ | |b|n|t|a]; try reflexivity.
  rewrite Ht. reflexivity.
Qed.

Lemma verifyToken_rejected_by_jose (env : Env) (req : Request)
    (h tok : string) (err : error) :
  authorization req = Some h -> h <> ""%string ->
  token_segment h = Str tok -> tok <> ""%string ->
  jwtVerify (jose env) tok (verification_key env) (clock env) = inl err ->
  verifyToken env req =
    ([Verified tok (verification_key env) (inl err);
      ConsoleError "Token verification failed:" err],
     Sent invalid_or_expired).
Proof.
  unfold verifyToken, token_segment, verification_key. intros -> Hh Hs Ht Hv.
  apply truthy_Str in Hh. rewrite Hh. cbn [negb]. rewrite Hs.
  apply truthy_Str in Ht. rewrite Ht. cbn [negb].
  unfold call_jwtVerify, bind, try_catch_all. rewrite Hv. reflexivity.
Qed.

Lemma verifyToken_accepted_by_jose (env : Env) (req : Request)
    (h tok : string) (payload : object) :
  authorization req = Some h -> h <> ""%string ->
  token_segment h = Str tok -> tok <> ""%string ->
  jwtVerify (jose env) tok (verification_key env) (clock env) = inr payload ->
  verifyToken env req =
    ([Verified tok (verification_key env) (inr payload)],
     Next (set_user req (Claims.mk (prop "id" payload)
                                   (prop "username" payload)
                                   (prop "role" payload)))).
Proof.
  unfold verifyToken, token_segment, verification_key. intros -> Hh Hs Ht Hv.
  apply truthy_Str in Hh. rewrite Hh. cbn [negb]. rewrite Hs.
  apply truthy_Str in Ht. rewrite Ht. cbn [negb].
  unfold call_jwtVerify, bind, try_catch_all. rewrite Hv. reflexivity.
Qed.

(** Every run of [verifyToken] is one of the four above. *)
Lemma verifyToken_cases (env : Env) (req : Request) :
  (authorization req = None \/ authorization req = Some ""%string)
  \/ (exists h, authorization req = Some h /\ h <> ""%string /\
                truthy (token_segment h) = false)
  \/ (exists h tok, authorization req = Some h /\ h <> ""%string /\
                    token_segment h = Str tok /\ tok <> ""%string).
Proof.
  destruct (authorization req) as [h|]; [|now left; left].
  destruct (String.eqb_spec h "") as [->|Hh]; [now left; right|].
  right. destruct (token_segment_shape h) as [E | (t & E)].
  - left. exists h. rewrite E. auto.
  - destruct (String.eqb_spec t "") as [->|Ht].
    + left. exists h. rewrite E. auto.
    + right. exists h, t. auto.
Qed.

(** C4 (as the code has it).  [verifyToken] maps its failures to fixed
    responses: an absent Authorization header, and likewise a present but
    empty one, gives 401 "No token provided"; a non-empty header with no
    token segment after its first word gives 401 "Malformed token"; a
    token segment that jose rejects gives 403 "Invalid or expired token",
    the same response whatever the error was (bad signature, expiry, bad
    structure). *)
Theorem verifyToken_failure_responses (env : Env) (req : Request) :
  (authorization req = None \/ authorization req = Some ""%string ->
   verifyToken env req = ([], Sent no_token)) /\
  (forall h,
     authorization req = Some h -> h <> ""%string ->
     truthy (token_segment h) = false ->
     verifyToken env req = ([], Sent malformed_token)) /\
  (forall h tok err,
     authorization req = Some h -> h <> ""%string ->
     token_segment h = Str tok -> tok <> ""%string ->
     jwtVerify (jose env) tok (verification_key env) (clock env) = inl err ->
     snd (verifyToken env req) = Sent invalid_or_expired).
Proof.
  split; [|split].
  - apply verifyToken_no_header.
  - intros h. apply verifyToken_no_segment.
  - intros h tok err Hh Hn Hs Ht Hv.
    now rewrite (verifyToken_rejected_by_jose env req h tok err).
Qed.


(** [verifyToken] reads the header's second segment only: any first word
    in place of "Bearer" gives the same events and the same decision. *)
Lemma verifyToken_ignores_scheme (env : Env) (u p : value)
    (usr : option Claims.t) (scheme rest : string) :
  avoids space scheme = true -> scheme <> ""%string ->
  decision (verifyToken env
              (mkRequest u p (Some (scheme ++ String space rest)%string) usr))
  = decision (verifyToken env
                (mkRequest u p (Some ("Bearer" ++ String space rest)%string) usr)).
Proof.
  intros Hs Hn. unfold verifyToken. cbn [authorization].
  assert (T : truthy (Str (scheme ++ String space rest)) = true).
  { apply truthy_Str. destruct scheme; [contradiction | discriminate]. }
  rewrite T. cbn [negb].
  replace (truthy (Str ("Bearer" ++ String space rest))) with true by reflexivity.
  cbn [negb]. rewrite (split_app space scheme rest Hs).
  rewrite (split_app space "Bearer" rest) by reflexivity.
  unfold index. cbn [nth_error].
  destruct (split space rest) as [|tok segs]; [reflexivity|].
  cbn [of_option]. destruct (negb (truthy (Str tok))); [reflexivity|].
  unfold call_jwtVerify, bind, try_catch_all.
  destruct (jwtVerify (jose env) tok (TextEncoder_encode (JWT_SECRET env))
              (clock env)); reflexivity.
Qed.

(* ===================================================================== *)
(** ** The demo collaborators meet the jose contract *)
(* ===================================================================== *)

Module DemoFacts.
Import Demo.

Lemma avoids_app (sep : ascii) (a b : string) :
  avoids sep (a ++ b)%string = avoids sep a && avoids sep b.
Proof.
  unfold avoids. induction a as [|c a IH]; simpl; [reflexivity|].
  now rewrite IH, andb_assoc.
Qed.

Lemma numeral_avoids (d : Decimal.uint) :
  avoids dot (NilEmpty.string_of_uint d) = true /\
  avoids space (NilEmpty.string_of_uint d) = true.
Proof.
  unfold avoids. induction d as [|d [IH1 IH2]|d [IH1 IH2]|d [IH1 IH2]
    |d [IH1 IH2]|d [IH1 IH2]|d [IH1 IH2]|d [IH1 IH2]|d [IH1 IH2]
    |d [IH1 IH2]|d [IH1 IH2]]; simpl; auto.
Qed.

Lemma dec_avoids (n : Z) :
  avoids dot (dec n) = true /\ avoids space (dec n) = true.
Proof.
  unfold dec, NilZero.string_of_uint.
  destruct (N.to_uint (Z.to_N n)) eqn:E; try (rewrite <- E; apply numeral_avoids).
  split; reflexivity.
Qed.

Lemma undec_dec (n : Z) : 0 <= n -> undec (dec n) = Some n.
Proof.
  intros Hn. unfold undec, dec.
  assert (Hnil : N.to_uint (Z.to_N n) <> Decimal.Nil).
  { unfold N.to_uint. destruct (Z.to_N n); [discriminate|].
    apply DecimalPos.Unsigned.to_uint_nonnil. }
  rewrite (NilZero.usu _ Hnil), DecimalN.Unsigned.of_to, Z2N.id by assumption.
  reflexivity.
Qed.

Lemma checksum_nonneg (s : string) : 0 <= checksum s.
Proof.
  destruct s; simpl; [lia|]. apply Z.mod_pos_bound. lia.
Qed.

(** What [demo_sign] returns when it returns a token. *)
Lemma demo_sign_inr (b : SignJWT.t) (key tok : string) :
  demo_sign b key = inr tok ->
  exists i u r e,
    prop "id" (SignJWT.payload b) = Num i /\
    prop "username" (SignJWT.payload b) = Str u /\
    prop "role" (SignJWT.payload b) = Str r /\
    prop "exp" (SignJWT.payload b) = Num e /\
    0 <= i /\ 0 <= e /\ plain u = true /\ plain r = true /\
    tok = (dec i ++ String dot (u ++ String dot (r ++ String dot
             (dec e ++ String dot (dec (checksum key))))))%string.
Proof.
  unfold demo_sign.
  destruct (prop "id" (SignJWT.payload b)) as [ | | |i| | ]; try discriminate.
  destruct (prop "username" (SignJWT.payload b)) as [ | | | |u| ];
    try discriminate.
  destruct (prop "role" (SignJWT.payload b)) as [ | | | |r| ]; try discriminate.
  destruct (prop "exp" (SignJWT.payload b)) as [ | | |e| | ]; try discriminate.
  destruct ((0 <=? i) && (0 <=? e) && plain u && plain r) eqn:G;
    [|discriminate].
  intros [= <-].
  apply andb_true_iff in G as [G Hr]. apply andb_true_iff in G as [G Hu].
  apply andb_true_iff in G as [Hi He].
  apply Z.leb_le in Hi. apply Z.leb_le in He.
  exists i, u, r, e. repeat split; auto.
Qed.

Lemma demo_split (i u r e m : string) :
  avoids dot i = true -> avoids dot u = true -> avoids dot r = true ->
  avoids dot e = true -> avoids dot m = true ->
  split dot (i ++ String dot (u ++ String dot (r ++ String dot
               (e ++ String dot m))))%string = [i; u; r; e; m].
Proof.
  intros Hi Hu Hr He Hm.
  now rewrite !split_app, split_avoids by assumption.
Qed.

Lemma demo_jose_spec : JoseSpec demo_jose.
Proof.
  constructor; cbn [sign jwtVerify demo_jose].
  - intros b key tok H.
    apply demo_sign_inr in H
      as (i & u & r & e & _ & _ & _ & _ & _ & _ & Hu & Hr & ->).
    unfold plain in Hu, Hr.
    apply andb_true_iff in Hu as [_ Hu]. apply andb_true_iff in Hr as [_ Hr].
    split.
    + destruct (dec i); discriminate.
    + change (String dot) with (String.append (String dot EmptyString)).
      rewrite !avoids_app, Hu, Hr.
      rewrite (proj2 (dec_avoids i)), (proj2 (dec_avoids e)),
        (proj2 (dec_avoids (checksum key))).
      reflexivity.
  - intros b key tok e now H He Hlt.
    apply demo_sign_inr in H
      as (i & u & r & e' & _ & _ & _ & He' & Hi & Hpos & Hu & Hr & ->).
    assert (e' = e) by congruence. subst e'.
    unfold plain in Hu, Hr.
    apply andb_true_iff in Hu as [Hu _]. apply andb_true_iff in Hr as [Hr _].
    unfold demo_jwtVerify.
    rewrite demo_split; try assumption; try apply dec_avoids.
    rewrite !undec_dec by (assumption || apply checksum_nonneg).
    rewrite Z.eqb_refl. cbn [negb].
    destruct (Z.leb_spec e now); [eauto | lia].
Qed.

End DemoFacts.

(* ===================================================================== *)
(** ** The token issuer *)
(* ===================================================================== *)

Lemma generateToken_run (env : Env) (user : Row.t) :
  generateToken env user =
    let b := claims_to_sign (clock env) user in
    let key := TextEncoder_encode (JWT_SECRET env) in
    match sign (jose env) b key with
    | inl e => ([Signed b key (inl e);
                 ConsoleError "Token generation failed:" e], inl e)
    | inr tok => ([Signed b key (inr tok)], inr tok)
    end.
Proof.
  unfold generateToken, call_sign, try_catch, bind, claims_to_sign.
  cbn -[Z.add].
  destruct (sign (jose env) _ _); reflexivity.
Qed.

(** C6.  For every identity record, [generateToken] asks jose to sign
    exactly one payload, whose fields are [id], [username] and [role]
    copied from the record followed by [exp], set by the server to one
    minute after its clock; what it returns is what jose returned for that
    payload.  No field is named after the password or its hash, and the
    stored hash has no influence on the run at all (the plaintext password
    is not even an input). *)
Theorem generateToken_claims (env : Env) (user : Row.t) :
  let b := claims_to_sign (clock env) user in
  let key := TextEncoder_encode (JWT_SECRET env) in
  (forall b' key' r,
     In (Signed b' key' r) (fst (generateToken env user)) ->
     b' = b /\ key' = key /\ r = sign (jose env) b key) /\
  In (Signed b key (sign (jose env) b key)) (fst (generateToken env user)) /\
  snd (generateToken env user) = sign (jose env) b key /\
  SignJWT.payload b =
    [("id", Row.id user); ("username", Row.username user);
     ("role", Row.role user); ("exp", Num (clock env + 60))] /\
  keys (SignJWT.payload b) = ["id"; "username"; "role"; "exp"]%string /\
  ~ In "password"%string (keys (SignJWT.payload b)) /\
  ~ In "passwordHashed"%string (keys (SignJWT.payload b)) /\
  (forall hash',
     generateToken env
       (Row.mk (Row.id user) (Row.username user) hash' (Row.role user))
     = generateToken env user).
Proof.
  cbv zeta. rewrite generateToken_run. cbv zeta.
  assert (P : forall hash',
     generateToken env
       (Row.mk (Row.id user) (Row.username user) hash' (Row.role user))
     = generateToken env user).
  { intros hash'. rewrite !generateToken_run. reflexivity. }
  rewrite generateToken_run in P. cbv zeta in P.
  destruct (sign (jose env) (claims_to_sign (clock env) user)
              (TextEncoder_encode (JWT_SECRET env))) as [e|tok];
    cbn [fst snd].
  - split; [|split; [|split; [|split; [|split; [|split; [|split]]]]]];
      try reflexivity; try assumption.
    + intros b' key' r [H|[H|[]]]; [|discriminate].
      injection H as <- <- <-. auto.
    + now left.
    + simpl. intros [H|[H|[H|[H|[]]]]]; discriminate.
    + simpl. intros [H|[H|[H|[H|[]]]]]; discriminate.
  - split; [|split; [|split; [|split; [|split; [|split; [|split]]]]]];
      try reflexivity; try assumption.
    + intros b' key' r [H|[]].
      injection H as <- <- <-. auto.
    + now left.
    + simpl. intros [H|[H|[H|[H|[]]]]]; discriminate.
    + simpl. intros [H|[H|[H|[H|[]]]]]; discriminate.
Qed.

Lemma generateToken_inr (env : Env) (user : Row.t) (tok : string) :
  snd (generateToken env user) = inr tok <->
  sign (jose env) (claims_to_sign (clock env) user)
       (TextEncoder_encode (JWT_SECRET env)) = inr tok.
Proof.
  rewrite generateToken_run. cbv zeta.
  destruct (sign (jose env) _ _); simpl; tauto.
Qed.

Lemma bearer_segment (tok : string) :
  avoids space tok = true ->
  token_segment ("Bearer " ++ tok)%string = Str tok.
Proof.
  intros H. unfold token_segment.
  change ("Bearer " ++ tok)%string with ("Bearer" ++ String space tok)%string.
  rewrite split_app by reflexivity.
  now rewrite split_avoids.
Qed.

(** C7.  A token that [generateToken] issued when the clock read [T],
    presented as [Authorization: Bearer <token>] when the clock reads more
    than [T + 60] seconds, is answered 403 "Invalid or expired token":
    jose, asked with the very key that signed it, rejects it on its [exp]
    claim. *)
Theorem expired_token_rejected (env : Env) (user : Row.t) (T t' : Z)
    (tok : string) (req : Request) :
  JoseSpec (jose env) ->
  snd (generateToken (at_time env T) user) = inr tok ->
  T + 60 < t' ->
  authorization req = Some ("Bearer " ++ tok)%string ->
  snd (verifyToken (at_time env t') req) = Sent invalid_or_expired.
Proof.
  intros J Hgen Hlate Hreq.
  apply generateToken_inr in Hgen. cbn [at_time jose JWT_SECRET clock] in Hgen.
  destruct (sign_compact _ J _ _ _ Hgen) as [Hne Hsp].
  destruct (jwtVerify_expired _ J _ _ _ (T + 60) t' Hgen eq_refl Hlate)
    as [err Herr].
  rewrite (verifyToken_rejected_by_jose (at_time env t') req
             ("Bearer " ++ tok) tok err); auto.
  - discriminate.
  - now apply bearer_segment.
Qed.

(* ===================================================================== *)
(** ** The login orchestrator *)
(* ===================================================================== *)

(** [login], path by path. *)
Lemma login_run (env : Env) (req : Request) :
  login env req =
    let u := body_username req in
    let p := body_password req in
    if negb (truthy u) || negb (truthy p) then mkRun [] fields_required
    else
      match db env with
      | None =>
          mkRun [ConsoleError "Login error:" not_connected] server_error
      | Some d =>
          let q := DbGet lookup_sql [u] (get d lookup_sql [u]) in
          match get d lookup_sql [u] with
          | inl e => mkRun [q; ConsoleError "Login error:" e] server_error
          | inr None => mkRun [q] invalid_credentials
          | inr (Some row) =>
              let h := Row.passwordHashed row in
              let c := BcryptCompare p h (bcrypt_compare env p h) in
              match bcrypt_compare env p h with
              | inl e =>
                  mkRun [q; c; ConsoleError "Login error:" e] server_error
              | inr false => mkRun [q; c] invalid_credentials
              | inr true =>
                  let b := claims_to_sign (clock env) row in
                  let key := TextEncoder_encode (JWT_SECRET env) in
                  match sign (jose env) b key with
                  | inl e =>
                      mkRun [q; c; Signed b key (inl e);
                             ConsoleError "Token generation failed:" e;
                             ConsoleError "Login error:" e] server_error
                  | inr tok =>
                      mkRun [q; c; Signed b key (inr tok)]
                            (json (identity_with_token row tok))
                  end
              end
          end
      end.
Proof.
  unfold login. cbv zeta.
  destruct (negb (truthy (body_username req)) || negb (truthy (body_password req)));
    [reflexivity|].
  unfold getDB. destruct (db env) as [d|]; [|reflexivity].
  unfold call_get, lookup_sql. cbn [bind ret throw try_catch_all].
  destruct (get d _ _) as [e|[row|]]; [reflexivity| |reflexivity].
  unfold call_compare. cbn [bind ret throw try_catch_all].
  destruct (bcrypt_compare env _ _) as [e|[|]]; [reflexivity| |reflexivity].
  cbn [negb]. rewrite generateToken_run. cbv zeta.
  destruct (sign (jose env) _ _); reflexivity.
Qed.

(** The success path in terms of what the collaborators answer. *)
Lemma login_success_path (env : Env) (req : Request) (d : Database)
    (row : Row.t) (tok : string) :
  validated req ->
  db env = Some d ->
  get d lookup_sql [body_username req] = inr (Some row) ->
  bcrypt_compare env (body_password req) (Row.passwordHashed row) = inr true ->
  snd (generateToken env row) = inr tok ->
  response (login env req) = json (identity_with_token row tok).
Proof.
  intros [Vu Vp] Hd Hq Hc Hs. apply generateToken_inr in Hs.
  rewrite login_run. cbv zeta. rewrite Vu, Vp, Hd, Hq, Hc, Hs. reflexivity.
Qed.

Lemma validated_passes (req : Request) :
  validated req ->
  negb (truthy (body_username req)) || negb (truthy (body_password req)) = false.
Proof. intros [-> ->]. reflexivity. Qed.


(** C5 (as the code has it).  For every login request that passes the
    presence check, when the connected store returns a record for the
    username, the verifier returns true for the password against that
    record's hash and [generateToken] returns a token for that record, the
    response is 200 with the body [{id, username, role, token}], the first
    three taken from that record and the last being that token; the body
    has exactly these four fields, none of them the password or its
    hash. *)
Theorem login_success_response (env : Env) (req : Request) (d : Database)
    (row : Row.t) (tok : string) :
  validated req ->
  db env = Some d ->
  get d lookup_sql [body_username req] = inr (Some row) ->
  bcrypt_compare env (body_password req) (Row.passwordHashed row) = inr true ->
  snd (generateToken env row) = inr tok ->
  response (login env req) =
    mkResponse 200 [("id", Row.id row); ("username", Row.username row);
                    ("role", Row.role row); ("token", Str tok)] /\
  keys (body (response (login env req)))
    = ["id"; "username"; "role"; "token"]%string /\
  ~ In "passwordHashed"%string (keys (body (response (login env req)))) /\
  ~ In "password"%string (keys (body (response (login env req)))).
Proof.
  intros V Hd Hq Hc Hs.
  rewrite (login_success_path env req d row tok V Hd Hq Hc Hs).
  cbn [json identity_with_token body keys map fst].
  repeat split; try reflexivity;
    intros [F|[F|[F|[F|[]]]]]; discriminate.
Qed.

(** C9.  When a request has passed the presence check and one of the
    unexpected failures occurs, [login] answers 500 with the body
    [{message: 'Server error'}], the same for every failure and every
    error object; the error object goes to the server's console only. *)
Theorem login_server_error (env : Env) (req : Request) (e : error) :
  validated req ->
  unexpected_failure env req e ->
  response (login env req) = server_error /\
  In (ConsoleError "Login error:" e) (events (login env req)).
Proof.
  intros V F. rewrite login_run. cbv zeta. rewrite (validated_passes _ V).
  destruct F as [Hd | d e Hd Hq | d row e Hd Hq Hc | d row e Hd Hq Hc Hs];
    rewrite Hd; try rewrite Hq; try rewrite Hc; try rewrite Hs;
    cbn [events response]; split; try reflexivity; simpl; auto 6.
Qed.

(* ===================================================================== *)
(** ** The request guard chain *)
(* ===================================================================== *)

Lemma verifyToken_invokes_nothing (env : Env) (req : Request) (name : string) :
  ~ In (Invoked name) (fst (verifyToken env req)).
Proof.
  destruct (verifyToken_cases env req)
    as [H | [(h & Hh & Hn & Ht) | (h & tok & Hh & Hn & Hs & Ht)]].
  - rewrite verifyToken_no_header by assumption. simpl. tauto.
  - rewrite (verifyToken_no_segment env req h) by assumption. simpl. tauto.
  - destruct (jwtVerify (jose env) tok (verification_key env) (clock env))
      as [err|payload] eqn:Hv.
    + rewrite (verifyToken_rejected_by_jose env req h tok err) by assumption.
      simpl. intros [F|[F|[]]]; discriminate.
    + rewrite (verifyToken_accepted_by_jose env req h tok payload)
        by assumption.
      simpl. intros [F|[]]; discriminate.
Qed.

Lemma checkRole_step (roles : option (list value)) (req : Request) :
  checkRole roles req = Sent access_denied \/ checkRole roles req = Next req.
Proof.
  unfold checkRole. destruct (user req) as [u|]; [|now left].
  destruct (negb (includes _ _)); [now left | now right].
Qed.

(** The run of a three-layer guarded stack, by the verdict of its guards. *)
Lemma guarded_run (env : Env) (roles : option (list value))
    (handler : Request -> list Event * Step) (req : Request) :
  dispatch (guarded env roles handler) req =
    let ev := fst (verifyToken env req) in
    match snd (verifyToken env req) with
    | Sent r => (Invoked "verifyToken" :: ev, Some r)
    | Next req' =>
        match checkRole roles req' with
        | Sent r =>
            (Invoked "verifyToken" :: ev ++ [Invoked "checkRole"], Some r)
        | Next req'' =>
            (Invoked "verifyToken" :: ev ++
               Invoked "checkRole" :: Invoked handler_name ::
               fst (handler req''),
             match snd (handler req'') with
             | Sent r => Some r
             | Next _ => None
             end)
        end
    end.
Proof.
  unfold guarded, pure_layer. cbn [dispatch].
  destruct (verifyToken env req) as [ev [r|req']]; cbn [fst snd]; [reflexivity|].
  destruct (checkRole roles req') as [r|req'']; [reflexivity|].
  destruct (handler req'') as [ev' [r|req3]]; cbn [fst snd app];
    now rewrite ?app_nil_r.
Qed.


(** The two-layer stack [verifyToken, handler] of [GET /data/all]: the
    handler is invoked exactly when [verifyToken] has called [next()]. *)
Lemma authenticated_run (env : Env)
    (handler : Request -> list Event * Step) (req : Request) :
  dispatch (authenticated env handler) req =
    let ev := fst (verifyToken env req) in
    match snd (verifyToken env req) with
    | Sent r => (Invoked "verifyToken" :: ev, Some r)
    | Next req' =>
        (Invoked "verifyToken" :: ev ++ Invoked handler_name ::
           fst (handler req'),
         match snd (handler req') with
         | Sent r => Some r
         | Next _ => None
         end)
    end.
Proof.
  unfold authenticated. cbn [dispatch].
  destruct (verifyToken env req) as [ev [r|req']]; cbn [fst snd]; [reflexivity|].
  destruct (handler req') as [ev' [r|req3]]; cbn [fst snd app];
    now rewrite ?app_nil_r.
Qed.

(* ===================================================================== *)
(** ** The login orchestrator, path by path *)
(* ===================================================================== *)

Lemma validated_iff (req : Request) :
  negb (truthy (body_username req)) || negb (truthy (body_password req)) = false
  <-> validated req.
Proof.
  unfold validated.
  destruct (truthy (body_username req)), (truthy (body_password req));
    simpl; split; intros H; try discriminate; try tauto;
    destruct H; discriminate.
Qed.

(** Splits a goal about [login env req] into the eight paths of the
    handler, keeping what the collaborators answered on each. *)
Ltac login_paths env req :=
  rewrite ?login_run; cbv zeta;
  destruct (negb (truthy (body_username req)) || negb (truthy (body_password req)))
    eqn:V;
  [ | destruct (db env) as [d|] eqn:Hd;
      [ destruct (get d lookup_sql [body_username req]) as [e|[row|]] eqn:Hq;
        [ | destruct (bcrypt_compare env (body_password req)
                        (Row.passwordHashed row)) as [e|[|]] eqn:Hc;
            [ | destruct (sign (jose env) (claims_to_sign (clock env) row)
                            (TextEncoder_encode (JWT_SECRET env)))
                  as [e|tok] eqn:Hs | ]
          | ]
      | ] ];
  cbn [events response].

(** The presence check on a parsed body. *)
Lemma login_400_parsed (env : Env) (req : Request) :
  (response (login env req) = fields_required <-> ~ validated req) /\
  (status (response (login env req)) = 400 <-> ~ validated req) /\
  (~ validated req -> events (login env req) = []).
Proof.
  login_paths env req;
    try (apply validated_iff in V;
         repeat split; intros H; try discriminate H; try contradiction).
  assert (N : ~ validated req).
  { intros H. apply validated_iff in H. congruence. }
  repeat split; auto.
Qed.

(** X1.  [login] answers 400 "Username and password required" exactly
    when [req.body] is an object whose username or password is falsy; such
    a request reaches no collaborator: nothing is looked up, compared,
    signed or logged, whatever state the store is in.  When [req.body] is
    [undefined] the destructuring throws a TypeError before the [try]:
    [login] then answers nothing at all, 400 included. *)
Theorem login_400_iff (env : Env) (inc : Incoming) :
  ((exists run, login_incoming env inc = inr run /\
                status (response run) = 400)
   <-> exists u p, incoming_body inc = Some (u, p) /\
                   (truthy u = false \/ truthy p = false)) /\
  (forall run,
     login_incoming env inc = inr run ->
     status (response run) = 400 ->
     response run = fields_required /\ events run = []) /\
  (incoming_body inc = None <->
   login_incoming env inc = inl cannot_destructure).
Proof.
  unfold login_incoming.
  destruct (incoming_body inc) as [[u p]|].
  - set (req := mkRequest u p (incoming_authorization inc) (incoming_user inc)).
    destruct (login_400_parsed env req) as (A & B & C).
    assert (NV : ~ validated req <-> truthy u = false \/ truthy p = false).
    { unfold validated, req. cbn [body_username body_password].
      destruct (truthy u), (truthy p); split; intros H; auto;
        try (elim H; split; reflexivity);
        try (intros [? ?]; destruct H; discriminate). }
    split; [|split].
    + split.
      * intros (run & [= <-] & H). exists u, p. split; [reflexivity|].
        apply NV, B, H.
      * intros (u' & p' & [= <- <-] & H). exists (login env req).
        split; [reflexivity|]. apply B, NV, H.
    + intros run [= <-] H. apply B in H. split; [now apply A | now apply C].
    + split; discriminate.
  - split; [|split].
    + split; [intros (run & [=] & _) | intros (u & p & [=] & _)].
    + intros run [=].
    + split; reflexivity.
Qed.

(** What lies behind a 200 of [login]. *)
Lemma login_200_inversion (env : Env) (req : Request) :
  status (response (login env req)) = 200 ->
  exists d row tok,
    validated req /\
    db env = Some d /\
    get d lookup_sql [body_username req] = inr (Some row) /\
    bcrypt_compare env (body_password req) (Row.passwordHashed row) = inr true /\
    sign (jose env) (claims_to_sign (clock env) row)
         (TextEncoder_encode (JWT_SECRET env)) = inr tok /\
    response (login env req) = json (identity_with_token row tok).
Proof.
  intros H. revert H. login_paths env req; intros H; try discriminate H.
  apply validated_iff in V. exists d, row, tok. auto 10.
Qed.

(** X2.  A 200 from [login] is always earned: the presence check was
    passed, the store is connected, the lookup for the request's username
    returned a row, the verifier returned true for the request's password
    against that row's hash, jose signed the claims of that row, and the
    body carries that row's id, username and role with that token.  With a
    verifier that returns false or throws, no request gets a 200. *)
Theorem login_200_sound (env : Env) (req : Request) :
  (status (response (login env req)) = 200 ->
   exists d row tok,
     validated req /\
     db env = Some d /\
     get d lookup_sql [body_username req] = inr (Some row) /\
     bcrypt_compare env (body_password req) (Row.passwordHashed row) = inr true /\
     sign (jose env) (claims_to_sign (clock env) row)
          (TextEncoder_encode (JWT_SECRET env)) = inr tok /\
     response (login env req) = json (identity_with_token row tok)) /\
  ((forall data hash, bcrypt_compare env data hash <> inr true) ->
   status (response (login env req)) <> 200).
Proof.
  split.
  - apply login_200_inversion.
  - intros N H.
    destruct (login_200_inversion env req H)
      as (d & row & tok & _ & _ & _ & Hc & _).
    exact (N _ _ Hc).
Qed.

(** X3.  [login] answers 401 "Invalid credentials" exactly in two
    situations, both behind the presence check: the store has no row for
    the username, or it has one and the verifier returned false. *)
Theorem login_401_iff (env : Env) (req : Request) :
  response (login env req) = invalid_credentials
  <-> validated req /\ (unknown_username env req \/ wrong_password env req).
Proof.
  split.
  - login_paths env req; intros H; try discriminate H;
      apply validated_iff in V; split; try assumption.
    + right. exists d, row. auto.
    + left. exists d. auto.
  - intros [V [(d & Hd & Hq) | (d & row & Hd & Hq & Hc)]];
      rewrite login_run; cbv zeta; rewrite (validated_passes _ V), Hd, Hq;
      [|rewrite Hc]; reflexivity.
Qed.

(** X4.  [login] answers 500 "Server error" exactly when the presence
    check was passed and one of the four unexpected failures occurred,
    and exactly then a line "Login error:" goes to the console; on every
    other path [login] logs nothing. *)
Theorem login_500_iff (env : Env) (req : Request) :
  (response (login env req) = server_error
   <-> validated req /\ exists e, unexpected_failure env req e) /\
  (response (login env req) = server_error
   <-> exists e, In (ConsoleError "Login error:" e) (events (login env req))) /\
  (response (login env req) <> server_error ->
   forall tag e, ~ In (ConsoleError tag e) (events (login env req))).
Proof.
  split; [|split].
  - split.
    + login_paths env req; intros H; try discriminate H;
        apply validated_iff in V; split; try assumption.
      * exists e. eapply store_unreachable; eauto.
      * exists e. eapply verifier_error; eauto.
      * exists e. eapply signing_failure; eauto.
      * exists not_connected. now apply store_uninitialized.
    + intros [V [e F]]. rewrite login_run. cbv zeta.
      rewrite (validated_passes _ V).
      destruct F as [Hd | d e Hd Hq | d row e Hd Hq Hc | d row e Hd Hq Hc Hs];
        rewrite Hd; try rewrite Hq; try rewrite Hc; try rewrite Hs;
        reflexivity.
  - split.
    + login_paths env req; intros H; try discriminate H;
        eexists; simpl; eauto 6.
    + login_paths env req; intros [e0 H]; try reflexivity; simpl in H;
        repeat (destruct H as [H|H]; try discriminate H); try contradiction.
  - login_paths env req; intros N tag e0 H; try (now elim N); simpl in H;
      repeat (destruct H as [H|H]; try discriminate H); try contradiction.
Qed.

Lemma cons_eq_app_cons {A : Type} (a x : A) (l pre post : list A) :
  a :: l = pre ++ x :: post ->
  (pre = [] /\ a = x /\ l = post) \/
  (exists pre', pre = a :: pre' /\ l = pre' ++ x :: post).
Proof.
  destruct pre as [|b pre']; cbn [app]; intros [= -> ->]; [left | right]; eauto.
Qed.

Lemma nil_eq_app_cons {A : Type} (x : A) (pre post : list A) :
  [] = pre ++ x :: post -> False.
Proof. destruct pre; discriminate. Qed.

(** Splits a membership in a list that is written out into its cases. *)
Ltac in_cases H :=
  cbn [In] in H;
  match type of H with
  | False => contradiction
  | _ \/ _ => destruct H as [H|H]; [|in_cases H]
  | _ => idtac
  end.

(** Finds every position at which a given event can stand in a list that
    is written out. *)
Ltac positions :=
  repeat match goal with
         | H : [] = _ ++ _ :: _ |- _ => elim (nil_eq_app_cons _ _ _ H)
         | H : _ :: _ = _ ++ _ :: _ |- _ =>
             apply cons_eq_app_cons in H as [(-> & ? & ?) | (? & -> & H)]
         end.

(** X5.  The calls [login] makes are tied to the request and ordered.
    Every store query is the SELECT with the username as its only
    parameter (never the password).  Whenever the verifier is called, the
    events before that call are exactly one lookup, which returned a row,
    and the call is made on the request's password and that row's hash.
    Whenever jose is asked to sign, the events before that call are
    exactly that lookup followed by the verifier's call, which returned
    true, and what is signed are the claims of that row under the
    configured key.  [login] never verifies a token. *)
Theorem login_call_discipline (env : Env) (req : Request) :
  let ev := events (login env req) in
  (forall sql params r,
     In (DbGet sql params r) ev ->
     sql = lookup_sql /\ params = [body_username req]) /\
  (forall pre post data hash r,
     ev = pre ++ BcryptCompare data hash r :: post ->
     data = body_password req /\
     exists row,
       hash = Row.passwordHashed row /\
       pre = [DbGet lookup_sql [body_username req] (inr (Some row))]) /\
  (forall pre post b key r,
     ev = pre ++ Signed b key r :: post ->
     key = TextEncoder_encode (JWT_SECRET env) /\
     exists row,
       b = claims_to_sign (clock env) row /\
       pre = [DbGet lookup_sql [body_username req] (inr (Some row));
              BcryptCompare (body_password req) (Row.passwordHashed row)
                (inr true)]) /\
  (forall token key r, ~ In (Verified token key r) ev).
Proof.
  cbv zeta.
  login_paths env req;
  ((split; [|split; [|split]]);
    [ intros sql params r0 H; in_cases H; try discriminate H;
      injection H as <- <- <-; split; reflexivity
    | intros pre post data hash r0 H; positions; subst; try discriminate;
      match goal with
      | E : BcryptCompare _ _ _ = BcryptCompare _ _ _ |- _ =>
          injection E as <- <- <-
      end;
      (split; [reflexivity|]); exists row; split; reflexivity
    | intros pre post b key r0 H; positions; subst; try discriminate;
      match goal with
      | E : Signed _ _ _ = Signed _ _ _ |- _ => injection E as <- <- <-
      end;
      (split; [reflexivity|]); exists row; split; reflexivity
    | intros token key r0 H; in_cases H; discriminate H ]).
Qed.

(* ===================================================================== *)
(** ** The gate and the verifier, continued *)
(* ===================================================================== *)

Lemma allows_iff (roles : list value) (req : Request) :
  allows (Some roles) req <->
  exists u, user req = Some u /\ In (Claims.role u) roles.
Proof.
  unfold allows, checkRole. destruct (user req) as [u|].
  - destruct (includes roles (Claims.role u)) eqn:E; cbn [negb].
    + apply includes_In in E. split; [eauto | reflexivity].
    + apply includes_not_In in E. split; [discriminate|].
      intros (u' & [= <-] & H). contradiction.
  - split; [discriminate | intros (u & H & _); discriminate].
Qed.

(** X6.  The role lists of [checkRole] behave as sets of alternatives:
    a request passes the gate for [roles1 ++ roles2] exactly when it
    passes for one of the two, so lengthening a list never takes access
    away; the order and repetition of roles do not matter; and the
    verdict depends on the role of the claims alone, not on their id or
    username.  The gate hands the request on unchanged. *)
Theorem checkRole_union (roles1 roles2 : list value) (req : Request) :
  (allows (Some (roles1 ++ roles2)) req
   <-> allows (Some roles1) req \/ allows (Some roles2) req) /\
  (forall roles roles',
     incl roles roles' -> allows (Some roles) req -> allows (Some roles') req) /\
  (forall roles i n i' n' r,
     allows (Some roles) (set_user req (Claims.mk i n r))
     <-> allows (Some roles) (set_user req (Claims.mk i' n' r))) /\
  (forall roles req', checkRole roles req = Next req' -> req' = req).
Proof.
  split; [|split; [|split]].
  - rewrite !allows_iff. split.
    + intros (u & Hu & H). apply in_app_or in H. destruct H; eauto.
    + intros [(u & Hu & H) | (u & Hu & H)]; exists u; split; auto;
        apply in_or_app; auto.
  - intros roles roles' Hi. rewrite !allows_iff.
    intros (u & Hu & H). eauto.
  - intros roles i n i' n' r. rewrite !allows_iff. cbn [set_user user].
    split; intros (u & [= <-] & H); eexists; split; try reflexivity; exact H.
  - intros roles req' H. destruct (checkRole_step roles req) as [E|E];
      congruence.
Qed.

Lemma verifyToken_by_segment (env : Env) (req : Request) (h : string) :
  authorization req = Some h -> h <> ""%string ->
  decision (verifyToken env req) =
    match token_segment h with
    | Str tok =>
        if negb (truthy (Str tok)) then ([], inl malformed_token)
        else
          match jwtVerify (jose env) tok (verification_key env) (clock env) with
          | inl err =>
              ([Verified tok (verification_key env) (inl err);
                ConsoleError "Token verification failed:" err],
               inl invalid_or_expired)
          | inr payload =>
              ([Verified tok (verification_key env) (inr payload)],
               inr (Some (Claims.mk (prop "id" payload)
                                    (prop "username" payload)
                                    (prop "role" payload))))
          end
    | _ => ([], inl malformed_token)
    end.
Proof.
  intros Hh Hn.
  destruct (token_segment_shape h) as [Hs | (tok & Hs)]; rewrite Hs.
  { rewrite (verifyToken_no_segment env req h Hh Hn); [reflexivity|].
    now rewrite Hs. }
  destruct (truthy (Str tok)) eqn:Ht; cbn [negb].
  - apply truthy_Str in Ht.
    destruct (jwtVerify (jose env) tok (verification_key env) (clock env))
      as [err|payload] eqn:Hv.
    + now rewrite (verifyToken_rejected_by_jose env req h tok err).
    + now rewrite (verifyToken_accepted_by_jose env req h tok payload).
  - rewrite (verifyToken_no_segment env req h Hh Hn); [reflexivity|].
    now rewrite Hs.
Qed.

(** X7.  What [verifyToken] decides, logs and attaches depends on the
    second blank-separated segment of the Authorization header and on
    nothing else of the request: not on the body, not on a [req.user]
    already present (it is overwritten), not on the first segment, not on
    anything after the second.  In particular a header with trailing
    segments is treated as the header without them. *)
Theorem verifyToken_segment_only (env : Env) (req1 req2 : Request)
    (h1 h2 : string) :
  authorization req1 = Some h1 -> authorization req2 = Some h2 ->
  h1 <> ""%string -> h2 <> ""%string ->
  token_segment h1 = token_segment h2 ->
  decision (verifyToken env req1) = decision (verifyToken env req2).
Proof.
  intros A1 A2 N1 N2 E.
  rewrite (verifyToken_by_segment env req1 h1 A1 N1).
  rewrite (verifyToken_by_segment env req2 h2 A2 N2).
  now rewrite E.
Qed.

Lemma segment_of (scheme tok rest : string) :
  avoids space scheme = true -> avoids space tok = true ->
  token_segment (scheme ++ String space (tok ++ String space rest))%string
    = Str tok /\
  token_segment (scheme ++ String space tok)%string = Str tok.
Proof.
  intros Hs Ht. unfold token_segment. split.
  - rewrite (split_app space scheme _ Hs), (split_app space tok rest Ht).
    reflexivity.
  - rewrite (split_app space scheme tok Hs), (split_avoids space tok Ht).
    reflexivity.
Qed.

(* ===================================================================== *)
(** ** From issuing to access *)
(* ===================================================================== *)

Lemma demo_jose_round_trip : JoseRoundTrip Demo.demo_jose.
Proof.
  constructor; cbn [sign jwtVerify Demo.demo_jose].
  intros i u r e key tok now _ _ _ H Hlt.
  apply DemoFacts.demo_sign_inr in H
    as (i' & u' & r' & e' & Hid & Hun & Hro & He' & Hi & Hpos & Hu & Hr & ->).
  cbn in Hid, Hun, Hro, He'. injection He' as <-. subst i u r.
  unfold Demo.plain in Hu, Hr.
  apply andb_true_iff in Hu as [Hu _]. apply andb_true_iff in Hr as [Hr _].
  unfold Demo.demo_jwtVerify.
  rewrite DemoFacts.demo_split; try assumption; try apply DemoFacts.dec_avoids.
  rewrite !DemoFacts.undec_dec by (assumption || apply DemoFacts.checksum_nonneg).
  rewrite Z.eqb_refl. cbn [negb].
  destruct (Z.leb_spec e now); [lia|].
  eexists. split; [reflexivity|]. cbn. auto.
Qed.

(** A fresh token of [generateToken], presented as a bearer token to a
    verifier holding the same key, passes [verifyToken], which attaches
    the record's id, username and role. *)
Lemma fresh_token_claims (envI envV : Env) (row : Row.t)
    (tok : string) (req : Request) :
  JoseSpec (jose envI) -> JoseRoundTrip (jose envI) ->
  jose envV = jose envI ->
  verification_key envV = TextEncoder_encode (JWT_SECRET envI) ->
  primitive (Row.id row) = true ->
  primitive (Row.username row) = true ->
  primitive (Row.role row) = true ->
  sign (jose envI) (claims_to_sign (clock envI) row)
       (TextEncoder_encode (JWT_SECRET envI)) = inr tok ->
  clock envV < clock envI + 60 ->
  authorization req = Some ("Bearer " ++ tok)%string ->
  snd (verifyToken envV req) =
    Next (set_user req
            (Claims.mk (Row.id row) (Row.username row) (Row.role row))).
Proof.
  intros J R EJ EK Pi Pu Pr Hs Hlt Hreq.
  destruct (sign_compact _ J _ _ _ Hs) as [Hne Hsp].
  destruct (jwtVerify_fresh _ R _ _ _ _ _ _ (clock envV) Pi Pu Pr Hs Hlt)
    as (p & Hv & Ei & Eu & Er).
  rewrite <- EJ, <- EK in Hv.
  rewrite (verifyToken_accepted_by_jose envV req ("Bearer " ++ tok) tok p);
    auto.
  - cbn [snd]. now rewrite Ei, Eu, Er.
  - discriminate.
  - now apply bearer_segment.
Qed.

Lemma expired_token_response (envI envV : Env) (row : Row.t)
    (tok : string) (req : Request) :
  JoseSpec (jose envI) ->
  jose envV = jose envI ->
  verification_key envV = TextEncoder_encode (JWT_SECRET envI) ->
  sign (jose envI) (claims_to_sign (clock envI) row)
       (TextEncoder_encode (JWT_SECRET envI)) = inr tok ->
  clock envI + 60 < clock envV ->
  authorization req = Some ("Bearer " ++ tok)%string ->
  snd (verifyToken envV req) = Sent invalid_or_expired.
Proof.
  intros J EJ EK Hs Hlate Hreq.
  destruct (sign_compact _ J _ _ _ Hs) as [Hne Hsp].
  destruct (jwtVerify_expired _ J _ _ _ (clock envI + 60) (clock envV)
              Hs eq_refl Hlate) as [err Herr].
  rewrite <- EJ, <- EK in Herr.
  rewrite (verifyToken_rejected_by_jose envV req ("Bearer " ++ tok) tok err);
    auto.
  - discriminate.
  - now apply bearer_segment.
Qed.

(** X8.  The lifetime of a token is one minute on both sides.  Let a
    process issue a token with [generateToken] for a record with primitive
    fields, and let a verifier run the same jose with the same key (the
    secret it encoded at load is the one the issuer read).  Presented as
    [Authorization: Bearer <token>], the token passes [verifyToken] while
    the verifier's clock is below the issuer's plus 60, and [verifyToken]
    then attaches exactly the record's id, username and role; once the
    clock is above the issuer's plus 60 the answer is 403. *)
Theorem token_lifetime (envI envV : Env) (row : Row.t)
    (tok : string) (req : Request) :
  JoseSpec (jose envI) -> JoseRoundTrip (jose envI) ->
  jose envV = jose envI ->
  verification_key envV = TextEncoder_encode (JWT_SECRET envI) ->
  primitive (Row.id row) = true ->
  primitive (Row.username row) = true ->
  primitive (Row.role row) = true ->
  snd (generateToken envI row) = inr tok ->
  authorization req = Some ("Bearer " ++ tok)%string ->
  (clock envV < clock envI + 60 ->
     snd (verifyToken envV req) =
       Next (set_user req
               (Claims.mk (Row.id row) (Row.username row) (Row.role row)))) /\
  (clock envI + 60 < clock envV ->
     snd (verifyToken envV req) = Sent invalid_or_expired).
Proof.
  intros J R EJ EK Pi Pu Pr Hgen Hreq.
  apply generateToken_inr in Hgen.
  split; intros Ht.
  - now apply (fresh_token_claims envI envV row tok req).
  - now apply (expired_token_response envI envV row tok req).
Qed.

Lemma guarded_reaches_iff (env : Env) (roles : option (list value))
    (handler : Request -> list Event * Step) (req : Request) :
  reaches_handler (dispatch (guarded env roles handler) req) <->
  exists req', snd (verifyToken env req) = Next req' /\ allows roles req'.
Proof.
  unfold reaches_handler, allows. rewrite guarded_run. cbv zeta.
  pose proof (verifyToken_invokes_nothing env req) as NI.
  destruct (snd (verifyToken env req)) as [r0|req0].
  - cbn [fst]. split.
    + intros [F|F]; [discriminate | elim (NI _ F)].
    + intros (req' & [=] & _).
  - destruct (checkRole_step roles req0) as [E|E]; rewrite E; cbn [fst]; split.
    + intros [F|F]; [discriminate|].
      apply in_app_or in F as [F|[F|[]]]; [elim (NI _ F) | discriminate].
    + intros (req' & [= <-] & Hc). congruence.
    + intros _. exists req0. auto.
    + intros _. right. apply in_or_app. right. right. now left.
Qed.

(** X9.  The role [login] reports is the role the gate enforces.  When
    [login] has answered 200 with primitive id, username and role [r] and
    a token, then, for a verifier running the same jose with the same key,
    while its clock is below the issuer's plus 60: on every route guarded
    by [verifyToken] and [checkRole(roles)], a request bearing that token
    reaches the handler exactly when [r] is one of [roles]. *)
Theorem login_token_grants_role (envI envV : Env) (req0 req : Request)
    (i u r : value) (tok : string) (roles : list value)
    (handler : Request -> list Event * Step) :
  JoseSpec (jose envI) -> JoseRoundTrip (jose envI) ->
  jose envV = jose envI ->
  verification_key envV = TextEncoder_encode (JWT_SECRET envI) ->
  response (login envI req0) =
    mkResponse 200 [("id", i); ("username", u); ("role", r); ("token", Str tok)] ->
  primitive i = true -> primitive u = true -> primitive r = true ->
  clock envV < clock envI + 60 ->
  authorization req = Some ("Bearer " ++ tok)%string ->
  (reaches_handler (dispatch (guarded envV (Some roles) handler) req)
   <-> In r roles).
Proof.
  intros J R EJ EK Hresp Pi Pu Pr Hlt Hreq.
  destruct (login_200_inversion envI req0)
    as (d & row & tok' & _ & _ & _ & _ & Hs & Hbody).
  { now rewrite Hresp. }
  rewrite Hresp in Hbody. unfold json, identity_with_token in Hbody.
  injection Hbody as Ei Eu Er Et. subst i u r tok'.
  pose proof (fresh_token_claims envI envV row tok req J R EJ EK Pi Pu Pr
                Hs Hlt Hreq) as Hv.
  rewrite guarded_reaches_iff, Hv. split.
  - intros (req' & [= <-] & Ha). apply allows_iff in Ha as (c & [= <-] & H).
    exact H.
  - intros H. eexists. split; [reflexivity|].
    apply allows_iff. eexists. split; [reflexivity | exact H].
Qed.

Lemma verifyToken_next_has_user (env : Env) (req req' : Request) :
  snd (verifyToken env req) = Next req' ->
  exists h tok payload,
    authorization req = Some h /\ token_segment h = Str tok /\
    jwtVerify (jose env) tok (verification_key env) (clock env) = inr payload /\
    req' = set_user req (Claims.mk (prop "id" payload)
                                   (prop "username" payload)
                                   (prop "role" payload)).
Proof.
  destruct (verifyToken_cases env req)
    as [H | [(h & Hh & Hn & Ht) | (h & tok & Hh & Hn & Hs & Ht)]].
  - rewrite verifyToken_no_header by assumption. discriminate.
  - rewrite (verifyToken_no_segment env req h) by assumption. discriminate.
  - destruct (jwtVerify (jose env) tok (verification_key env) (clock env))
      as [err|payload] eqn:Hv.
    + rewrite (verifyToken_rejected_by_jose env req h tok err) by assumption.
      discriminate.
    + rewrite (verifyToken_accepted_by_jose env req h tok payload)
        by assumption.
      intros [= <-]. exists h, tok, payload. auto.
Qed.

(** X10.  The admin and the advisor routes exclude each other: no request
    reaches both handlers in the same deployment at the same clock,
    because its token carries one role.  And whatever reaches either of
    them would also reach a handler guarded by [verifyToken] alone. *)
Theorem admin_advisor_exclusive (env : Env) (req : Request) :
  ~ (reaches_handler (dispatch (route_admin env) req) /\
     reaches_handler (dispatch (route_advisor env) req)) /\
  (forall handler,
     reaches_handler (dispatch (route_admin env) req) \/
     reaches_handler (dispatch (route_advisor env) req) ->
     reaches_handler (dispatch (authenticated env handler) req)).
Proof.
  unfold route_admin, route_advisor. rewrite !guarded_reaches_iff. split.
  - intros [(r1 & H1 & A1) (r2 & H2 & A2)].
    assert (r2 = r1) by congruence. subst r2.
    apply allows_iff in A1 as (u1 & U1 & [E1|[]]).
    apply allows_iff in A2 as (u2 & U2 & [E2|[]]).
    assert (u2 = u1) by congruence. subst u2. congruence.
  - intros handler H. rewrite ?guarded_reaches_iff in H.
    assert (N : exists req', snd (verifyToken env req) = Next req').
    { destruct H as [(r & Hr & _)|(r & Hr & _)]; eauto. }
    destruct N as (req' & Hr).
    unfold reaches_handler. rewrite authenticated_run. cbv zeta. rewrite Hr.
    cbn [fst]. right. apply in_or_app. right. now left.
Qed.

(** X11.  [GET /data/all] asks for a verified token and nothing more:
    when [verifyToken] sends a response the handler is not invoked and
    that response is the answer; when it calls [next()] the handler runs
    whatever the role is, always finds [req.user] (its TypeError cannot
    occur behind this guard) and answers 200 with the greeting built from
    the token's username and role. *)
Theorem all_route_any_role (ToString : value -> string)
    (express_error : error -> Response) (env : Env) (req : Request) :
  let run := dispatch (route_all ToString express_error env) req in
  (forall r,
     snd (verifyToken env req) = Sent r ->
     snd run = Some r /\ ~ reaches_handler run) /\
  (forall req',
     snd (verifyToken env req) = Next req' ->
     reaches_handler run /\
     exists u,
       user req' = Some u /\
       snd run =
         Some (json [("message",
                      Str ("Hello " ++ ToString (Claims.username u) ++
                           ", your role is " ++ ToString (Claims.role u))%string)])).
Proof.
  cbv zeta. unfold route_all, reaches_handler. rewrite authenticated_run.
  cbv zeta. pose proof (verifyToken_invokes_nothing env req) as NI. split.
  - intros r Hr. rewrite Hr. cbn [fst snd]. split; [reflexivity|].
    intros [F|F]; [discriminate | exact (NI _ F)].
  - intros req' Hr. rewrite Hr. cbn [fst snd]. split.
    + right. apply in_or_app. right. now left.
    + apply verifyToken_next_has_user in Hr as (h & tok & p & _ & _ & _ & ->).
      eexists. split; reflexivity.
Qed.

(* ===================================================================== *)
(** ** Connecting and seeding *)
(* ===================================================================== *)

Lemma connectDB_state (sq : Sqlite.t) (file : string) (st : option Database) :
  fst (connectDB sq file st) =
    match Sqlite.open sq file with
    | inr d => Some d
    | inl _ => st
    end.
Proof.
  unfold connectDB. destruct (Sqlite.open sq file) as [e|d]; [reflexivity|].
  destruct (Sqlite.exec sq d create_users_sql); reflexivity.
Qed.

Lemma connect_attempts_state (attempts : list (Sqlite.t * string))
    (st : option Database) :
  connect_attempts attempts st =
    match last_opened attempts with
    | Some d => Some d
    | None => st
    end.
Proof.
  revert st. induction attempts as [|[sq file] rest IH]; intros st;
    cbn [connect_attempts last_opened]; [reflexivity|].
  rewrite IH, connectDB_state.
  destruct (last_opened rest); [reflexivity|].
  destruct (Sqlite.open sq file); reflexivity.
Qed.

(** X12.  The module variable [db] follows the calls of [connectDB] as
    follows: after any sequence of calls, [getDB] returns the handle of
    the last call whose [open] resolved - even when creating the table
    failed in that call - and it throws "Database not connected" when no
    [open] has resolved; a call whose [open] rejects leaves the handle in
    place.  The "ready" line is logged exactly by the calls that
    resolve. *)
Theorem connectDB_getDB (env : Env) (attempts : list (Sqlite.t * string)) :
  getDB (set_db env (connect_attempts attempts None)) =
    match last_opened attempts with
    | Some d => ret d
    | None => throw not_connected
    end /\
  (forall sq file st,
     (exists e, Sqlite.open sq file = inl e) ->
     fst (connectDB sq file st) = st) /\
  (forall sq file st d e,
     Sqlite.open sq file = inr d ->
     Sqlite.exec sq d create_users_sql = inl e ->
     connectDB sq file st = (Some d, ([], inl e)) /\
     getDB (set_db env (fst (connectDB sq file st))) = ret d) /\
  (forall sq file st,
     snd (snd (connectDB sq file st)) = inr tt <->
     fst (snd (connectDB sq file st)) = ["SQLite connected and users table ready."]%string).
Proof.
  split; [|split; [|split]].
  - rewrite connect_attempts_state. unfold getDB, set_db. cbn [db].
    destruct (last_opened attempts); reflexivity.
  - intros sq file st [e He]. now rewrite connectDB_state, He.
  - intros sq file st d e Ho He. unfold connectDB. rewrite Ho, He.
    split; reflexivity.
  - intros sq file st. unfold connectDB.
    destruct (Sqlite.open sq file) as [e|d]; cbn [fst snd];
      [split; discriminate|].
    destruct (Sqlite.exec sq d create_users_sql) as [e|[]]; cbn [fst snd];
      split; (discriminate || reflexivity).
Qed.

Module SeedFacts.
Import Seed.

(** One iteration of the loop: whatever [db.run] answers, the loop goes
    on with the next user. *)
Lemma loop_step (hash : string -> Z -> error + string) (sq : Sqlite.t)
    (d : Database) (u : User) (rest : list User) :
  loop hash sq d (u :: rest) =
    match hash (password u) 10 with
    | inl e => ([Hashed (password u) 10 (inl e)], inl e)
    | inr hashed =>
        let params := [Str (username u); Str hashed; Str (role u)] in
        (Hashed (password u) 10 (inr hashed)
           :: Ran insert_sql params (Sqlite.run sq d insert_sql params)
           :: fst (loop hash sq d rest),
         snd (loop hash sq d rest))
    end.
Proof.
  cbn [loop]. destruct (hash (password u) 10) as [e|hashed]; [reflexivity|].
  cbv zeta.
  destruct (Sqlite.run sq d insert_sql _) as [err|[]];
    [destruct (includes (message err) "UNIQUE")|];
    destruct (loop hash sq d rest); reflexivity.
Qed.



Lemma loop_ran (hash : string -> Z -> error + string) (sq : Sqlite.t)
    (d : Database) (us : list User) (sql : string) (params : list value)
    (r : error + unit) :
  In (Ran sql params r) (fst (loop hash sq d us)) ->
  sql = insert_sql /\
  r = Sqlite.run sq d insert_sql params /\
  exists u h,
    In u us /\ hash (password u) 10 = inr h /\
    params = [Str (username u); Str h; Str (role u)].
Proof.
  induction us as [|u rest IH].
  - intros [].
  - rewrite loop_step. destruct (hash (password u) 10) as [e|hashed] eqn:Hh.
    + intros [F|[]]. discriminate.
    + cbv zeta. cbn [fst]. intros [F|[F|F]]; [discriminate| |].
      * injection F as <- <- <-. repeat split.
        exists u, hashed. split; [now left | auto].
      * destruct (IH F) as (E1 & E2 & u' & h & Hin & Hu & Ep).
        repeat split; try assumption.
        exists u', h. split; [now right | auto].
Qed.

Lemma loop_independent (hash : string -> Z -> error + string)
    (sq sq' : Sqlite.t) (d : Database) (us : list User) :
  snd (loop hash sq d us) = snd (loop hash sq' d us) /\
  inserts (fst (loop hash sq d us)) = inserts (fst (loop hash sq' d us)).
Proof.
  induction us as [|u rest [IH1 IH2]]; [split; reflexivity|].
  rewrite !loop_step. destruct (hash (password u) 10); [split; reflexivity|].
  cbv zeta. cbn [fst snd inserts]. split; congruence.
Qed.

(** [seed], case by case. *)
Lemma seed_run (hash : string -> Z -> error + string) (sq : Sqlite.t)
    (file : string) (env : Env) :
  seed hash sq file env =
    match Sqlite.open sq file with
    | inl e => ([], inl e)
    | inr d =>
        match Sqlite.exec sq d create_users_sql with
        | inl e => ([], inl e)
        | inr _ =>
            let ready := ConsoleLog "SQLite connected and users table ready." in
            match snd (loop hash sq d users) with
            | inl e => (ready :: fst (loop hash sq d users), inl e)
            | inr _ =>
                (ready :: fst (loop hash sq d users) ++
                   [ConsoleLog "Users seeded."; Exit 0], inr tt)
            end
        end
    end.
Proof.
  unfold seed, connectDB.
  destruct (Sqlite.open sq file) as [e|d]; [reflexivity|].
  destruct (Sqlite.exec sq d create_users_sql) as [e|[]]; [reflexivity|].
  cbn [getDB set_db db snd ret map]. cbv zeta.
  destruct (loop hash sq d users) as [ev [e|[]]]; reflexivity.
Qed.

Lemma inserts_app (a b : list Event) :
  inserts (a ++ b) = inserts a ++ inserts b.
Proof.
  induction a as [|[data rounds r|sql params r|line|code] a IH];
    cbn [app inserts]; rewrite ?IH; reflexivity.
Qed.

End SeedFacts.

(** X13.  The seed script ignores every failure of an insert, whether
    or not its message mentions UNIQUE: how the script ends and which
    rows it tries to insert are the same for any two sqlite handles that
    open and create the table alike, whatever their [db.run] answers. *)
Theorem seed_ignores_insert_failures
    (hash : string -> Z -> error + string) (sq sq' : Sqlite.t)
    (file : string) (env : Env) :
  Sqlite.open sq file = Sqlite.open sq' file ->
  (forall d sql, Sqlite.exec sq d sql = Sqlite.exec sq' d sql) ->
  snd (Seed.seed hash sq file env) = snd (Seed.seed hash sq' file env) /\
  Seed.inserts (fst (Seed.seed hash sq file env))
    = Seed.inserts (fst (Seed.seed hash sq' file env)).
Proof.
  intros Ho He. rewrite !SeedFacts.seed_run, <- Ho.
  destruct (Sqlite.open sq file) as [e|d]; [split; reflexivity|].
  rewrite <- He.
  destruct (Sqlite.exec sq d create_users_sql) as [e|[]]; [split; reflexivity|].
  cbv zeta.
  destruct (SeedFacts.loop_independent hash sq sq' d Seed.users) as [E1 E2].
  rewrite <- E1.
  destruct (snd (Seed.loop hash sq d Seed.users)) as [e|[]]; cbn [fst snd].
  - split; [reflexivity|]. cbn [Seed.inserts]. exact E2.
  - split; [reflexivity|]. cbn [Seed.inserts].
    rewrite !SeedFacts.inserts_app, E2. reflexivity.
Qed.

(** X14.  The seed script stores hashes only.  Every [db.run] it makes
    is the INSERT statement with the parameters [username, hashed, role]
    of one of its three users, where [hashed] is what [bcrypt.hash]
    returned for that user's password with 10 rounds.  With a
    [bcrypt.hash] whose results are in the modular crypt format (they
    begin with "$2"), no password of the script is among the parameters
    of any insert. *)
Theorem seed_inserts_hashes
    (hash : string -> Z -> error + string) (sq : Sqlite.t)
    (file : string) (env : Env) (sql : string) (params : list value)
    (r : error + unit) :
  (forall data h, hash data 10 = inr h -> String.prefix "$2" h = true) ->
  In (Seed.Ran sql params r) (fst (Seed.seed hash sq file env)) ->
  sql = Seed.insert_sql /\
  (exists u h,
     In u Seed.users /\
     hash (Seed.password u) 10 = inr h /\
     params = [Str (Seed.username u); Str h; Str (Seed.role u)]) /\
  (forall u', In u' Seed.users -> ~ In (Str (Seed.password u')) params).
Proof.
  intros Crypt. rewrite SeedFacts.seed_run.
  destruct (Sqlite.open sq file) as [e|d]; [intros []|].
  destruct (Sqlite.exec sq d create_users_sql) as [e|[]]; [intros []|].
  cbv zeta.
  assert (L : In (Seed.Ran sql params r) (fst (Seed.loop hash sq d Seed.users)) ->
              sql = Seed.insert_sql /\
              (exists u h,
                 In u Seed.users /\
                 hash (Seed.password u) 10 = inr h /\
                 params = [Str (Seed.username u); Str h; Str (Seed.role u)]) /\
              (forall u', In u' Seed.users ->
                          ~ In (Str (Seed.password u')) params)).
  { intros H. apply SeedFacts.loop_ran in H as (E & _ & u & h & Hu & Hh & ->).
    split; [assumption|]. split; [exists u, h; auto|].
    intros u' Hu' F. apply Crypt in Hh.
    cbn [Seed.users In] in Hu, Hu'.
    destruct Hu as [<-|[<-|[<-|[]]]]; destruct Hu' as [<-|[<-|[<-|[]]]];
      cbn [Seed.username Seed.password Seed.role In] in F;
      destruct F as [F|[F|[F|[]]]]; try discriminate F;
      injection F as F; rewrite F in Hh; vm_compute in Hh;
      discriminate Hh. }
  destruct (snd (Seed.loop hash sq d Seed.users)) as [e|[]]; cbn [fst].
  - intros [F|F]; [discriminate | auto].
  - intros [F|F]; [discriminate|].
    apply in_app_or in F as [F|[F|[F|[]]]]; try discriminate. auto.
Qed.


(* ===================================================================== *)
(** ** The theorems at work on the demo deployment *)
(* ===================================================================== *)

Import Demo.




(** C4, where the claim as written fails: an Authorization header that
    is present but empty has no token segment, and is answered
    "No token provided", not "Malformed token". *)
Lemma verifyToken_empty_header_is_no_token :
  authorization (get_with (Some ""%string)) = Some ""%string /\
  truthy (token_segment "") = false /\
  verifyToken (env_at 1010) (get_with (Some ""%string)) = ([], Sent no_token) /\
  no_token <> malformed_token /\
  ~ (forall env req h,
       authorization req = Some h ->
       truthy (token_segment h) = false ->
       verifyToken env req = ([], Sent malformed_token)).
Proof.
  split; [reflexivity|]. split; [reflexivity|]. split; [reflexivity|].
  split; [discriminate|].
  intros H.
  specialize (H (env_at 1010) (get_with (Some ""%string)) ""%string
                eq_refl eq_refl).
  discriminate H.
Qed.

(** The failure responses of [verifyToken] on the demo deployment: no
    header, an empty header, a scheme word alone, a forged signature, an
    expired token. *)
Lemma verifyToken_failure_responses_witness :
  verifyToken (env_at 1010) (get_with None) = ([], Sent no_token) /\
  verifyToken (env_at 1010) (get_with (Some ""%string)) = ([], Sent no_token) /\
  verifyToken (env_at 1010) (get_with (Some "Bearer")) = ([], Sent malformed_token) /\
  snd (verifyToken (env_at 1010) (get_with (Some "Bearer 3.admin1.admin.1060.1")))
    = Sent invalid_or_expired /\
  snd (verifyToken (env_at 1061) (get_with (Some ("Bearer " ++ admin_token)%string)))
    = Sent invalid_or_expired.
Proof.
  split; [|split; [|split; [|split]]].
  - apply (proj1 (verifyToken_failure_responses (env_at 1010) (get_with None))).
    left. reflexivity.
  - apply (proj1 (verifyToken_failure_responses (env_at 1010)
                    (get_with (Some ""%string)))).
    right. reflexivity.
  - apply (proj1 (proj2 (verifyToken_failure_responses (env_at 1010)
                           (get_with (Some "Bearer")))) "Bearer"%string).
    + reflexivity.
    + discriminate.
    + reflexivity.
  - apply (proj2 (proj2 (verifyToken_failure_responses (env_at 1010)
                           (get_with (Some "Bearer 3.admin1.admin.1060.1"))))
             "Bearer 3.admin1.admin.1060.1"%string
             "3.admin1.admin.1060.1"%string
             (Error "JWSSignatureVerificationFailed"
                    "signature verification failed")).
    + reflexivity.
    + discriminate.
    + reflexivity.
    + discriminate.
    + vm_compute. reflexivity.
  - apply (proj2 (proj2 (verifyToken_failure_responses (env_at 1061)
                           (get_with (Some ("Bearer " ++ admin_token)%string))))
             ("Bearer " ++ admin_token)%string admin_token
             (Error "JWTExpired" "exp claim timestamp check failed")).
    + reflexivity.
    + discriminate.
    + reflexivity.
    + discriminate.
    + vm_compute. reflexivity.
Defined.

(** C5, where the claim as written fails: the store holds guest, whose
    stored hash matches the empty password, and a token could be issued
    for guest; a login as guest with the empty password is answered
    400. *)
Lemma login_matching_empty_password_is_400 :
  get (table (seeded ++ [DemoGuest.guest])) lookup_sql [Str "guest"]
    = inr (Some DemoGuest.guest) /\
  bcrypt_compare (DemoGuest.env_at 1000) (Str "")
    (Row.passwordHashed DemoGuest.guest) = inr true /\
  snd (generateToken (DemoGuest.env_at 1000) DemoGuest.guest)
    = inr "4.guest.user.1060.64854"%string /\
  response (login (DemoGuest.env_at 1000) (post_login (Str "guest") (Str "")))
    = fields_required /\
  ~ (forall env req d row tok,
       db env = Some d ->
       get d lookup_sql [body_username req] = inr (Some row) ->
       bcrypt_compare env (body_password req) (Row.passwordHashed row)
         = inr true ->
       snd (generateToken env row) = inr tok ->
       status (response (login env req)) = 200).
Proof.
  split; [reflexivity|]. split; [reflexivity|].
  split; [vm_compute; reflexivity|]. split; [reflexivity|].
  intros H.
  specialize (H (DemoGuest.env_at 1000) (post_login (Str "guest") (Str ""))
                (table (seeded ++ [DemoGuest.guest])) DemoGuest.guest
                "4.guest.user.1060.64854"%string
                eq_refl eq_refl eq_refl).
  assert (G : snd (generateToken (DemoGuest.env_at 1000) DemoGuest.guest)
              = inr "4.guest.user.1060.64854"%string)
    by (vm_compute; reflexivity).
  specialize (H G). vm_compute in H. discriminate H.
Qed.

(** admin1 logs in with the right password. *)
Lemma login_success_response_witness :
  response (login (env_at 1000) (post_login (Str "admin1") (Str "password3")))
    = mkResponse 200 [("id", Num 3); ("username", Str "admin1");
                      ("role", Str "admin"); ("token", Str admin_token)] /\
  keys (body (response (login (env_at 1000)
                         (post_login (Str "admin1") (Str "password3")))))
    = ["id"; "username"; "role"; "token"]%string /\
  ~ In "passwordHashed"%string
       (keys (body (response (login (env_at 1000)
                               (post_login (Str "admin1") (Str "password3")))))) /\
  ~ In "password"%string
       (keys (body (response (login (env_at 1000)
                               (post_login (Str "admin1") (Str "password3")))))).
Proof.
  apply (login_success_response (env_at 1000)
           (post_login (Str "admin1") (Str "password3"))
           (table seeded) admin1 admin_token).
  - split; reflexivity.
  - reflexivity.
  - reflexivity.
  - reflexivity.
  - vm_compute. reflexivity.
Defined.

(** The token issued to admin1 at 1000 is refused at 1061. *)
Lemma expired_token_rejected_witness :
  snd (verifyToken (env_at 1061) (get_with (Some ("Bearer " ++ admin_token)%string)))
    = Sent invalid_or_expired.
Proof.
  apply (expired_token_rejected (env_at 0) admin1 1000 1061 admin_token
           (get_with (Some ("Bearer " ++ admin_token)%string))).
  - exact DemoFacts.demo_jose_spec.
  - reflexivity.
  - lia.
  - reflexivity.
Defined.


(** A login before [connectDB()] has run. *)
Lemma login_server_error_witness :
  response (login (env_unconnected 1000) (post_login (Str "admin1") (Str "password3")))
    = server_error /\
  In (ConsoleError "Login error:" not_connected)
     (events (login (env_unconnected 1000)
                (post_login (Str "admin1") (Str "password3")))).
Proof.
  apply (login_server_error (env_unconnected 1000)
           (post_login (Str "admin1") (Str "password3")) not_connected).
  - split; reflexivity.
  - apply store_uninitialized. reflexivity.
Defined.

(** The end-to-end scenario of the specification: admin1 logs in, uses the
    token on the admin route (200), on the advisor route (403), and calls
    a protected route with no header (401). *)
Example end_to_end :
  response (login (env_at 1000) (post_login (Str "admin1") (Str "password3")))
    = json [("id", Num 3); ("username", Str "admin1");
            ("role", Str "admin"); ("token", Str admin_token)] /\
  snd (dispatch (route_admin (env_at 1010))
         (get_with (Some ("Bearer " ++ admin_token)%string)))
    = Some (json [("message", Str "Admin content here")]) /\
  snd (dispatch (route_advisor (env_at 1010))
         (get_with (Some ("Bearer " ++ admin_token)%string)))
    = Some access_denied /\
  snd (dispatch (route_admin (env_at 1010)) (get_with None)) = Some no_token.
Proof. repeat split; vm_compute; reflexivity. Qed.

(** A password that is not a string makes the verifier throw. *)
Example login_verifier_throws :
  response (login (env_at 1000) (post_login (Str "admin1") (Num 5)))
    = server_error.
Proof. reflexivity. Qed.

(* ===================================================================== *)
(** ** More runs on the demo deployment *)
(* ===================================================================== *)

(** admin1's 200 is traced back to the row, the match and the signing. *)
Lemma login_200_sound_witness :
  exists d row tok,
    validated (post_login (Str "admin1") (Str "password3")) /\
    db (env_at 1000) = Some d /\
    get d lookup_sql [Str "admin1"] = inr (Some row) /\
    bcrypt_compare (env_at 1000) (Str "password3") (Row.passwordHashed row)
      = inr true /\
    sign (jose (env_at 1000)) (claims_to_sign 1000 row)
         (TextEncoder_encode (JWT_SECRET (env_at 1000))) = inr tok /\
    response (login (env_at 1000) (post_login (Str "admin1") (Str "password3")))
      = json (identity_with_token row tok).
Proof.
  apply (proj1 (login_200_sound (env_at 1000)
                  (post_login (Str "admin1") (Str "password3")))).
  reflexivity.
Defined.

(** Trailing segments, another first word, a body and earlier claims make
    no difference to [verifyToken]. *)
Lemma verifyToken_segment_only_witness :
  decision (verifyToken (env_at 1010)
              (get_with (Some ("Bearer " ++ admin_token ++ " trailing")%string)))
  = decision (verifyToken (env_at 1010)
                (mkRequest (Str "x") (Str "y")
                   (Some ("Token " ++ admin_token)%string)
                   (Some (Claims.mk (Num 1) (Str "user1") (Str "user"))))).
Proof.
  apply (verifyToken_segment_only (env_at 1010)
           (get_with (Some ("Bearer " ++ admin_token ++ " trailing")%string))
           (mkRequest (Str "x") (Str "y")
              (Some ("Token " ++ admin_token)%string)
              (Some (Claims.mk (Num 1) (Str "user1") (Str "user"))))
           ("Bearer " ++ admin_token ++ " trailing")%string
           ("Token " ++ admin_token)%string).
  - reflexivity.
  - reflexivity.
  - discriminate.
  - discriminate.
  - reflexivity.
Defined.

(** admin1's token of clock 1000 at clocks 1030 and 1090. *)
Lemma token_lifetime_witness :
  snd (verifyToken (env_at 1030) (get_with (Some ("Bearer " ++ admin_token)%string)))
    = Next (set_user (get_with (Some ("Bearer " ++ admin_token)%string))
              (Claims.mk (Num 3) (Str "admin1") (Str "admin"))) /\
  snd (verifyToken (env_at 1090) (get_with (Some ("Bearer " ++ admin_token)%string)))
    = Sent invalid_or_expired.
Proof.
  split.
  - apply (proj1 (token_lifetime (env_at 1000) (env_at 1030) admin1 admin_token
                    (get_with (Some ("Bearer " ++ admin_token)%string))
                    DemoFacts.demo_jose_spec demo_jose_round_trip
                    eq_refl eq_refl eq_refl eq_refl eq_refl eq_refl eq_refl)).
    reflexivity.
  - apply (proj2 (token_lifetime (env_at 1000) (env_at 1090) admin1 admin_token
                    (get_with (Some ("Bearer " ++ admin_token)%string))
                    DemoFacts.demo_jose_spec demo_jose_round_trip
                    eq_refl eq_refl eq_refl eq_refl eq_refl eq_refl eq_refl)).
    reflexivity.
Defined.

(** The token of admin1's login opens the admin route and not the advisor
    route. *)
Lemma login_token_grants_role_witness :
  (reaches_handler
     (dispatch (guarded (env_at 1010) (Some [Str "admin"]) admin_handler)
        (get_with (Some ("Bearer " ++ admin_token)%string)))
   <-> In (Str "admin") [Str "admin"]) /\
  (reaches_handler
     (dispatch (guarded (env_at 1010) (Some [Str "advisor"]) advisor_handler)
        (get_with (Some ("Bearer " ++ admin_token)%string)))
   <-> In (Str "admin") [Str "advisor"]).
Proof.
  split.
  - apply (login_token_grants_role (env_at 1000) (env_at 1010)
             (post_login (Str "admin1") (Str "password3"))
             (get_with (Some ("Bearer " ++ admin_token)%string))
             (Num 3) (Str "admin1") (Str "admin") admin_token
             [Str "admin"] admin_handler
             DemoFacts.demo_jose_spec demo_jose_round_trip);
      reflexivity.
  - apply (login_token_grants_role (env_at 1000) (env_at 1010)
             (post_login (Str "admin1") (Str "password3"))
             (get_with (Some ("Bearer " ++ admin_token)%string))
             (Num 3) (Str "admin1") (Str "admin") admin_token
             [Str "advisor"] advisor_handler
             DemoFacts.demo_jose_spec demo_jose_round_trip);
      reflexivity.
Defined.

(** Seeding a table that has the rows, and seeding a read-only file, end
    alike and attempt the same inserts. *)
Lemma seed_ignores_insert_failures_witness :
  snd (Seed.seed DemoSeed.demo_bcrypt_hash DemoSeed.seeded_sqlite
         "database.sqlite" (env_unconnected 0))
  = snd (Seed.seed DemoSeed.demo_bcrypt_hash DemoSeed.readonly_sqlite
           "database.sqlite" (env_unconnected 0)) /\
  Seed.inserts (fst (Seed.seed DemoSeed.demo_bcrypt_hash DemoSeed.seeded_sqlite
                       "database.sqlite" (env_unconnected 0)))
  = Seed.inserts (fst (Seed.seed DemoSeed.demo_bcrypt_hash
                         DemoSeed.readonly_sqlite
                         "database.sqlite" (env_unconnected 0))).
Proof.
  apply (seed_ignores_insert_failures DemoSeed.demo_bcrypt_hash
           DemoSeed.seeded_sqlite DemoSeed.readonly_sqlite
           "database.sqlite" (env_unconnected 0)).
  - reflexivity.
  - intros d sql. reflexivity.
Defined.

(** The insert the seed script attempts for admin1. *)
Lemma seed_inserts_hashes_witness :
  Seed.insert_sql = Seed.insert_sql /\
  (exists u h,
     In u Seed.users /\
     DemoSeed.demo_bcrypt_hash (Seed.password u) 10 = inr h /\
     [Str "admin1"; Str (demo_hash "password3"); Str "admin"]
       = [Str (Seed.username u); Str h; Str (Seed.role u)]) /\
  (forall u', In u' Seed.users ->
     ~ In (Str (Seed.password u'))
          [Str "admin1"; Str (demo_hash "password3"); Str "admin"]).
Proof.
  apply (seed_inserts_hashes DemoSeed.demo_bcrypt_hash DemoSeed.seeded_sqlite
           "database.sqlite" (env_unconnected 0) Seed.insert_sql
           [Str "admin1"; Str (demo_hash "password3"); Str "admin"]
           (inl (Error "Error"
                   "SQLITE_CONSTRAINT: UNIQUE constraint failed: users.username"))).
  - intros data h [= <-]. reflexivity.
  - vm_compute. do 6 right. left. reflexivity.
Defined.

(** The seed script against a file that cannot be opened, and a login in
    the same process afterwards. *)
Example seed_cannot_open :
  snd (Seed.seed DemoSeed.demo_bcrypt_hash DemoSeed.broken_sqlite
         "database.sqlite" (env_unconnected 0))
    = inl (Error "Error" "SQLITE_CANTOPEN: unable to open database file") /\
  response (login (set_db (env_unconnected 0)
                     (connect_attempts
                        [(DemoSeed.broken_sqlite, "database.sqlite"%string)] None))
              (post_login (Str "admin1") (Str "password3")))
    = server_error.
Proof. split; reflexivity. Qed.

